(** * tfrt/support/ref_count.h : intrusive atomic reference counting

    A shallow embedding of [ReferenceCounted<SubClass>], [RCReference<T>],
    [FormRef], [TakeRef] and the global [total_reference_counted_objects]
    counter, followed by the properties of the design document that can be
    stated over it.

    Modelling conventions.
    - [std::atomic<unsigned>] is a [Z] kept in [0, 2^32) with the wrap-around
      of [fetch_add]/[fetch_sub] written out; [std::atomic<size_t>] is a [Z]
      kept in [0, 2^64) (LP64).
    - A raw pointer [T*] is an [option addr]: [None] is [nullptr], [Some p]
      may dangle.  The live [ReferenceCounted] sub-objects are a finite map
      from addresses.  The first part of the file is about a [SubClass]
      that adds no [RCReference] data members; module [Members] has the
      objects that own handles, whose destruction destroys these in turn.
    - An [RCReference] lives at a storage location, so that [this] and
      [other] may alias in [operator=(RCReference&&)].
    - Every atomic read-modify-write is one indivisible step.  Interleavings
      of threads are sequences of such steps (section [Interleaving]).
    - [assert] follows <cassert>: with [NDEBUG] the condition is not even
      evaluated, otherwise a false condition aborts the process.
    - [Destroy] is the default hook, [delete static_cast<SubClass*>(this)]. *)

From Stdlib Require Import ZArith Lia.
From stdpp Require Import gmap list.

Local Open Scope Z_scope.

(** ** Machine integers *)

Definition UINT_MODULUS : Z := 2 ^ 32.
Definition SIZE_MODULUS : Z := 2 ^ 64.

Definition wrap_unsigned (z : Z) : Z := z mod UINT_MODULUS.
Definition wrap_size_t (z : Z) : Z := z mod SIZE_MODULUS.

(** ** Memory *)

Abbreviation addr := positive (only parsing).
Abbreviation hloc := nat (only parsing).
Abbreviation ptr := (option positive) (only parsing).
Abbreviation nullptr := (@None positive) (only parsing).

(** The data members of [ReferenceCounted<SubClass>]. *)
Record ReferenceCounted : Type := mkReferenceCounted { ref_count_ : Z }.

(** The data members of [RCReference<T>]. *)
Record RCReference : Type := mkRCReference { pointer_ : ptr }.

(** Calls on counted objects, newest first.  [EvDropRef p c] records that a
    [DropRef] on [p] read [c] as the value before its decrement. *)
Inductive event : Type :=
| EvAddRef (p : addr)
| EvDropRef (p : addr) (observed : Z)
| EvDestroy (p : addr).

Record State : Type := mkState {
  objs : gmap positive ReferenceCounted;
  total_reference_counted_objects : Z;
  handles : gmap nat RCReference;
  trace : list event
}.

Definition set_objs (f : gmap positive ReferenceCounted -> gmap positive ReferenceCounted)
    (s : State) : State :=
  mkState (f (objs s)) (total_reference_counted_objects s) (handles s) (trace s).

Definition set_total (f : Z -> Z) (s : State) : State :=
  mkState (objs s) (f (total_reference_counted_objects s)) (handles s) (trace s).

Definition set_handles (f : gmap nat RCReference -> gmap nat RCReference)
    (s : State) : State :=
  mkState (objs s) (total_reference_counted_objects s) (f (handles s)) (trace s).

Definition log (e : event) (s : State) : State :=
  mkState (objs s) (total_reference_counted_objects s) (handles s) (e :: trace s).

(** The state at process start: [total_reference_counted_objects{0}]. *)
Definition initial_state : State := mkState ∅ 0 ∅ [].

(** ** Outcomes and the monad of the program *)

Inductive result (A : Type) : Type :=
| Ok (a : A) (s : State)
| Abort          (* a failed [assert]: the process is terminated *)
| Undefined.     (* undefined behaviour: null or dangling access *)

Arguments Ok {A} a s.
Arguments Abort {A}.
Arguments Undefined {A}.

Definition M (A : Type) : Type := State -> result A.

Definition ret {A} (a : A) : M A := fun s => Ok a s.

Definition bind {A B} (m : M A) (k : A -> M B) : M B :=
  fun s => match m s with
           | Ok a s' => k a s'
           | Abort => Abort
           | Undefined => Undefined
           end.

Notation "x <- m ;; k" := (bind m (fun x => k))
  (at level 100, m at next level, right associativity).
Notation "m ;; k" := (bind m (fun _ => k))
  (at level 100, right associativity).

Definition modify (f : State -> State) : M unit := fun s => Ok tt (f s).
Definition undefined {A} : M A := fun _ => Undefined.
Definition abort {A} : M A := fun _ => Abort.

(** Build configuration: whether the translation unit is compiled with
    [NDEBUG] defined. *)
Class BuildConfig : Type := NDEBUG : bool.

Definition debug_build : BuildConfig := false.
Definition release_build : BuildConfig := true.

Section Program.

Context {cfg : BuildConfig}.

(** [assert(cond)]. *)
Definition assert_ (cond : M bool) : M unit :=
  if NDEBUG then ret tt
  else b <- cond ;; if b : bool then ret tt else abort.

(** ** std::atomic operations *)

(** [ref_count_.load()] of the object at [this]. *)
Definition ref_count_load (this : addr) : M Z :=
  fun s => match objs s !! this with
           | Some o => Ok (ref_count_ o) s
           | None => Undefined
           end.

(** [ref_count_.fetch_add(n)]: one atomic step, returns the previous value. *)
Definition ref_count_fetch_add (this : addr) (n : Z) : M Z :=
  fun s => match objs s !! this with
           | Some o =>
               Ok (ref_count_ o)
                  (set_objs <[this := mkReferenceCounted (wrap_unsigned (ref_count_ o + n))]> s)
           | None => Undefined
           end.

(** [ref_count_.fetch_sub(n)]. *)
Definition ref_count_fetch_sub (this : addr) (n : Z) : M Z :=
  fun s => match objs s !! this with
           | Some o =>
               Ok (ref_count_ o)
                  (set_objs <[this := mkReferenceCounted (wrap_unsigned (ref_count_ o - n))]> s)
           | None => Undefined
           end.

Definition total_fetch_add (n : Z) : M Z :=
  fun s => Ok (total_reference_counted_objects s)
              (set_total (fun t => wrap_size_t (t + n)) s).

Definition total_fetch_sub (n : Z) : M Z :=
  fun s => Ok (total_reference_counted_objects s)
              (set_total (fun t => wrap_size_t (t - n)) s).

(** [GetNumReferenceCountedObjects()]. *)
Definition GetNumReferenceCountedObjects : M Z :=
  fun s => Ok (total_reference_counted_objects s) s.

(** ** class ReferenceCounted *)

(** [ReferenceCounted() : ref_count_(1)] run on fresh storage at [this]. *)
Definition ReferenceCounted_ctor (this : addr) : M unit :=
  fun s => match objs s !! this with
           | Some _ => Undefined
           | None =>
               (modify (set_objs <[this := mkReferenceCounted 1]>) ;;
                total_fetch_add 1 ;;
                ret tt) s
           end.

(** [~ReferenceCounted()]; the lifetime of the object ends with it. *)
Definition ReferenceCounted_dtor (this : addr) : M unit :=
  fun s => match objs s !! this with
           | None => Undefined
           | Some _ =>
               (assert_ (c <- ref_count_load this ;; ret (c =? 0)) ;;
                total_fetch_sub 1 ;;
                modify (set_objs (delete this))) s
           end.

(** [delete static_cast<SubClass*>(p)]. *)
Definition delete_ (p : addr) : M unit := ReferenceCounted_dtor p.

(** [Destroy()], the default hook, for a [SubClass] without [RCReference]
    data members: the destructor of the [SubClass] then ends no handle
    and drops no unit ([Members.Destroy_with] is the general case). *)
Definition Destroy (this : addr) : M unit :=
  modify (log (EvDestroy this)) ;;
  delete_ this.

(** [AddRef()]. *)
Definition AddRef (this : addr) : M unit :=
  ref_count_fetch_add this 1 ;;
  modify (log (EvAddRef this)).

(** [DropRef()]. *)
Definition DropRef (this : addr) : M unit :=
  old <- ref_count_fetch_sub this 1 ;;
  modify (log (EvDropRef this old)) ;;
  if old =? 1 then Destroy this else ret tt.

(** [IsUnique()]. *)
Definition IsUnique (this : addr) : M bool :=
  c <- ref_count_load this ;; ret (c =? 1).

(** ** class RCReference *)

(** Read and write of the member [pointer_] of the handle stored at [this]. *)
Definition get_pointer (this : hloc) : M ptr :=
  fun s => match handles s !! this with
           | Some h => Ok (pointer_ h) s
           | None => Undefined
           end.

Definition set_pointer (this : hloc) (v : ptr) : M unit :=
  fun s => match handles s !! this with
           | Some _ => Ok tt (set_handles <[this := mkRCReference v]> s)
           | None => Undefined
           end.

(** Member initialisation [pointer_(v)] of a handle under construction. *)
Definition init_pointer (this : hloc) (v : ptr) : M unit :=
  fun s => match handles s !! this with
           | Some _ => Undefined
           | None => Ok tt (set_handles <[this := mkRCReference v]> s)
           end.

(** [p->f()] through a raw pointer. *)
Definition arrow {A} (p : ptr) (f : addr -> M A) : M A :=
  match p with
  | Some a => f a
  | None => undefined
  end.

Definition is_nonnull (p : ptr) : bool :=
  match p with Some _ => true | None => false end.

(** [RCReference() : pointer_(nullptr)]. *)
Definition RCReference_ctor (this : hloc) : M unit :=
  init_pointer this nullptr.

(** [RCReference(RCReference&& other)]; the converting constructor from
    [RCReference<U>&&] has the same body. *)
Definition RCReference_move_ctor (this other : hloc) : M unit :=
  v <- get_pointer other ;;
  init_pointer this v ;;
  set_pointer other nullptr.

(** [operator=(RCReference&& other)]. *)
Definition operator_assign (this other : hloc) : M unit :=
  p <- get_pointer this ;;
  (if is_nonnull p then arrow p DropRef else ret tt) ;;
  v <- get_pointer other ;;
  set_pointer this v ;;
  set_pointer other nullptr.

(** [~RCReference()]; the storage of the handle is gone afterwards. *)
Definition RCReference_dtor (this : hloc) : M unit :=
  p <- get_pointer this ;;
  (if is_nonnull p then arrow p DropRef else ret tt) ;;
  modify (set_handles (delete this)).

(** [reset(T* pointer = nullptr)]. *)
Definition reset (this : hloc) (pointer : ptr) : M unit :=
  p <- get_pointer this ;;
  (if is_nonnull p then arrow p DropRef else ret tt) ;;
  set_pointer this pointer.

(** [release()]. *)
Definition release (this : hloc) : M ptr :=
  tmp <- get_pointer this ;;
  set_pointer this nullptr ;;
  ret tmp.

(** [operator*()]: the result is a reference to the live referent. *)
Definition operator_star (this : hloc) : M addr :=
  assert_ (p <- get_pointer this ;; ret (is_nonnull p)) ;;
  p <- get_pointer this ;;
  arrow p (fun a => ref_count_load a ;; ret a).

(** [operator->()]. *)
Definition operator_arrow (this : hloc) : M ptr :=
  assert_ (p <- get_pointer this ;; ret (is_nonnull p)) ;;
  get_pointer this.

(** [get()]. *)
Definition get (this : hloc) : M ptr := get_pointer this.

(** [explicit operator bool()]. *)
Definition operator_bool (this : hloc) : M bool :=
  p <- get_pointer this ;; ret (is_nonnull p).

(** [swap(RCReference& other)], through [std::swap] of the two pointers. *)
Definition swap (this other : hloc) : M unit :=
  a <- get_pointer this ;;
  b <- get_pointer other ;;
  set_pointer this b ;;
  set_pointer other a.

(** [FormRef(pointer)].  The local [ref] is built in the storage [result]
    of the returned value. *)
Definition FormRef (result : hloc) (pointer : ptr) : M unit :=
  RCReference_ctor result ;;
  set_pointer result pointer ;;
  arrow pointer AddRef.

(** [TakeRef(pointer)]. *)
Definition TakeRef (result : hloc) (pointer : ptr) : M unit :=
  RCReference_ctor result ;;
  set_pointer result pointer.

(** [CopyRef()]. *)
Definition CopyRef (this result : hloc) : M unit :=
  p <- get_pointer this ;;
  if negb (is_nonnull p) then RCReference_ctor result
  else (q <- get this ;; FormRef result q).

End Program.

(** ** Programs over the public interface *)

(** One call of a client: on a counted object, on a handle, or one of the
    free functions.  [New p] is [new SubClass] returning [p]; [Delete p] is
    a [delete] that by-passes the counting. *)
Inductive command : Type :=
| New (p : addr)
| Delete (p : addr)
| CallAddRef (p : addr)
| CallDropRef (p : addr)
| CallIsUnique (p : addr)
| CallGetNum
| HandleDefault (h : hloc)
| HandleMove (h other : hloc)
| HandleAssign (h other : hloc)
| HandleDtor (h : hloc)
| HandleReset (h : hloc) (q : ptr)
| HandleRelease (h : hloc)
| HandleStar (h : hloc)
| HandleArrow (h : hloc)
| HandleGet (h : hloc)
| HandleBool (h : hloc)
| HandleSwap (h other : hloc)
| HandleCopyRef (h r : hloc)
| CallFormRef (r : hloc) (q : ptr)
| CallTakeRef (r : hloc) (q : ptr).

Section Exec.

Context {cfg : BuildConfig}.

Definition exec (c : command) : M unit :=
  match c with
  | New p => ReferenceCounted_ctor p
  | Delete p => delete_ p
  | CallAddRef p => AddRef p
  | CallDropRef p => DropRef p
  | CallIsUnique p => IsUnique p ;; ret tt
  | CallGetNum => GetNumReferenceCountedObjects ;; ret tt
  | HandleDefault h => RCReference_ctor h
  | HandleMove h other => RCReference_move_ctor h other
  | HandleAssign h other => operator_assign h other
  | HandleDtor h => RCReference_dtor h
  | HandleReset h q => reset h q
  | HandleRelease h => release h ;; ret tt
  | HandleStar h => operator_star h ;; ret tt
  | HandleArrow h => operator_arrow h ;; ret tt
  | HandleGet h => get h ;; ret tt
  | HandleBool h => operator_bool h ;; ret tt
  | HandleSwap h other => swap h other
  | HandleCopyRef h r => CopyRef h r
  | CallFormRef r q => FormRef r q
  | CallTakeRef r q => TakeRef r q
  end.

Fixpoint run (cs : list command) : M unit :=
  match cs with
  | [] => ret tt
  | c :: cs' => exec c ;; run cs'
  end.

(** The states a process can be in: those some program reaches from process
    start without undefined behaviour and without being aborted. *)
Definition reachable (s : State) : Prop :=
  exists cs, run cs initial_state = Ok tt s.

End Exec.

(** ** Counting calls in a trace *)

(** Number of [DropRef] calls on [p] that read 1 before their decrement. *)
Definition saw_last_unit (p : addr) (e : event) : bool :=
  match e with
  | EvDropRef q c => bool_decide (q = p) && (c =? 1)
  | _ => false
  end.

Definition is_destroy (p : addr) (e : event) : bool :=
  match e with
  | EvDestroy q => bool_decide (q = p)
  | _ => false
  end.

Definition is_drop (p : addr) (e : event) : bool :=
  match e with
  | EvDropRef q _ => bool_decide (q = p)
  | _ => false
  end.

Definition count_events (f : event -> bool) (tr : list event) : nat :=
  length (filter (fun e => f e = true) tr).

Definition last_unit_drops (p : addr) (s : State) : nat :=
  count_events (saw_last_unit p) (trace s).

Definition hook_runs (p : addr) (s : State) : nat :=
  count_events (is_destroy p) (trace s).

(** Number of [DropRef] calls, on any object. *)
Definition is_any_drop (e : event) : bool :=
  match e with
  | EvDropRef _ _ => true
  | _ => false
  end.

Definition drops_total (s : State) : nat :=
  count_events is_any_drop (trace s).

Definition drops (p : addr) (s : State) : nat :=
  count_events (is_drop p) (trace s).

(** The reference count of the object at [p], if it is live. *)
Definition count_of (s : State) (p : addr) : option Z :=
  ref_count_ <$> objs s !! p.

(** The pointer held by the handle stored at [h], if it is live. *)
Definition pointer_of (s : State) (h : hloc) : option ptr :=
  pointer_ <$> handles s !! h.

(** ** Threads *)

(** [DropRef] is two actions of the calling thread: the atomic decrement,
    and then, when it read 1, the call of the hook.  Other threads may run
    in between. *)
Section Interleaving.

Context {cfg : BuildConfig}.

Definition DropRef_decrement (this : addr) : M Z :=
  old <- ref_count_fetch_sub this 1 ;;
  modify (log (EvDropRef this old)) ;;
  ret old.

(** What a thread holds of the object: the units it owns (through handles
    or raw pointers it is responsible for), and whether it is inside
    [DropRef] between a decrement that read 1 and the hook. *)
Record thread : Type := mkThread { units : nat; in_DropRef : bool }.

Record conf : Type := mkConf { mem : State; pool : list thread }.

Definition total_units (ts : list thread) : nat := sum_list_with units ts.

Definition pending (ts : list thread) : nat :=
  sum_list_with (fun th => if in_DropRef th then 1%nat else 0%nat) ts.

Variable obj : addr.

(** A step of one thread on the object [obj], under the ownership contract:
    only a thread that owns a unit calls [AddRef] or [DropRef], [AddRef] is
    not called on a counter that is at [UINT_MAX], and units move between
    threads only by transfer. *)
Inductive tstep : conf -> conf -> Prop :=
| step_AddRef c t th k s' :
    pool c !! t = Some th ->
    in_DropRef th = false ->
    (0 < units th)%nat ->
    count_of (mem c) obj = Some k ->
    k < UINT_MODULUS - 1 ->
    AddRef obj (mem c) = Ok tt s' ->
    tstep c (mkConf s' (<[t := mkThread (S (units th)) false]> (pool c)))
| step_DropRef_decrement c t th old s' :
    pool c !! t = Some th ->
    in_DropRef th = false ->
    (0 < units th)%nat ->
    DropRef_decrement obj (mem c) = Ok old s' ->
    tstep c (mkConf s' (<[t := mkThread (pred (units th)) (old =? 1)]> (pool c)))
| step_DropRef_hook c t th s' :
    pool c !! t = Some th ->
    in_DropRef th = true ->
    Destroy obj (mem c) = Ok tt s' ->
    tstep c (mkConf s' (<[t := mkThread (units th) false]> (pool c)))
| step_transfer c t u th uh :
    t <> u ->
    pool c !! t = Some th ->
    pool c !! u = Some uh ->
    in_DropRef th = false ->
    (0 < units th)%nat ->
    tstep c (mkConf (mem c)
               (<[u := mkThread (S (units uh)) (in_DropRef uh)]>
                  (<[t := mkThread (pred (units th)) false]> (pool c))))
| step_spawn c :
    tstep c (mkConf (mem c) (pool c ++ [mkThread 0 false])).

(** The creator has just constructed the object, at an address on which no
    hook and no last-unit [DropRef] has been recorded, and owns its first
    unit. *)
Definition created (c : conf) : Prop :=
  exists s0, objs s0 !! obj = None /\
             last_unit_drops obj s0 = 0%nat /\
             hook_runs obj s0 = 0%nat /\
             ReferenceCounted_ctor obj s0 = Ok tt (mem c) /\
             pool c = [mkThread 1 false].

Definition executes (c c' : conf) : Prop := rtc tstep c c'.

(** What the counter, the units and the trace have to do with each other
    while the contract is kept. *)
Definition unit_invariant (c : conf) : Prop :=
  let U := total_units (pool c) in
  let n := last_unit_drops obj (mem c) in
  let k := hook_runs obj (mem c) in
  n = (k + pending (pool c))%nat /\
  (n <= 1)%nat /\
  (n = 0%nat ->
     count_of (mem c) obj = Some (Z.of_nat U) /\
     (0 < U)%nat /\ Z.of_nat U < UINT_MODULUS) /\
  (n = 1%nat ->
     U = 0%nat /\
     (k = 0%nat -> count_of (mem c) obj = Some 0) /\
     (k = 1%nat -> objs (mem c) !! obj = None)).

End Interleaving.

(** ** Post-states of [DropRef] *)

(** What a call of [DropRef] on a live object does, in one equation: the
    state after a decrement that did not read 1, and the state after one
    that did (the hook has run and the object is gone). *)
Definition after_decrement (p : addr) (c : Z) (s : State) : State :=
  log (EvDropRef p c)
      (set_objs <[p := mkReferenceCounted (wrap_unsigned (c - 1))]> s).

Definition after_destroy (p : addr) (s : State) : State :=
  mkState (delete p (objs s))
          (wrap_size_t (total_reference_counted_objects s - 1))
          (handles s)
          (EvDestroy p :: EvDropRef p 1 :: trace s).


(** ** Example states *)

(** After [auto* o = new SubClass; auto a = TakeRef(o);] with [o] at address
    5 and [a] stored at location 0. *)
Definition st_adopted : State :=
  mkState {[5%positive := mkReferenceCounted 1]} 1
          {[0%nat := mkRCReference (Some 5%positive)]} [].

(** After [new SubClass; o->AddRef(); auto a = TakeRef(o);]: the handle [a]
    owns one unit and the creator still owns the other through [o]. *)
Definition st_shared : State :=
  mkState {[5%positive := mkReferenceCounted 2]} 1
          {[0%nat := mkRCReference (Some 5%positive)]} [EvAddRef 5%positive].

(** Two handles to one object, each owning a unit. *)
Definition st_two_handles : State :=
  mkState {[5%positive := mkReferenceCounted 2]} 1
          {[0%nat := mkRCReference (Some 5%positive);
            1%nat := mkRCReference (Some 5%positive)]} [EvAddRef 5%positive].

(** Two handles to two objects. *)
Definition st_two_objects : State :=
  mkState {[5%positive := mkReferenceCounted 1; 6%positive := mkReferenceCounted 1]} 2
          {[0%nat := mkRCReference (Some 5%positive);
            1%nat := mkRCReference (Some 6%positive)]} [].

(** One default-constructed handle and no object. *)
Definition st_empty_handle : State :=
  mkState ∅ 0 {[0%nat := mkRCReference None]} [].

(** A live object whose counter reads 0. *)
Definition st_zero_count : State :=
  mkState {[5%positive := mkReferenceCounted 0]} 1 ∅ [].

(** ** Invariants *)

(** [m] keeps [P]: every normal return from a state in [P] is in [P]. *)
Definition preserves {A} (P : State -> Prop) (m : M A) : Prop :=
  forall s a s', P s -> m s = Ok a s' -> P s'.

(** The live-object counter reads the number of live objects (as a
    [size_t]). *)
Definition counter_ok (s : State) : Prop :=
  total_reference_counted_objects s = wrap_size_t (Z.of_nat (size (objs s))).

(** An execution of two steps: the creator, thread 0, calls [DropRef] on the
    object it has just constructed at address 5. *)
Definition conf_created : conf :=
  mkConf (mkState {[5%positive := mkReferenceCounted 1]} 1 ∅ [])
         [mkThread 1 false].

Definition conf_decremented : conf :=
  mkConf (mkState {[5%positive := mkReferenceCounted 0]} 1 ∅
            [EvDropRef 5%positive 1])
         [mkThread 0 true].

Definition conf_destroyed : conf :=
  mkConf (mkState ∅ 0 ∅ [EvDestroy 5%positive; EvDropRef 5%positive 1])
         [mkThread 0 false].

(** ** The rest of the interface *)

(** The converting constructor [RCReference(RCReference<U>&& u)], for [U]
    derived from [T]; the pointer conversion keeps the address of the
    [ReferenceCounted] sub-object. *)
Definition RCReference_converting_ctor (this u : hloc) : M unit :=
  v <- get_pointer u ;;
  init_pointer this v ;;
  set_pointer u nullptr.

(** The free function [swap(RCReference<T>& a, RCReference<T>& b)]. *)
Definition free_swap (a b : hloc) : M unit := swap a b.

(** The generic exchange of two handles through a temporary,
    [RCReference tmp(std::move(a)); a = std::move(b); b = std::move(tmp);],
    with the temporary destroyed at the end. *)
Definition swap_by_moves `{cfg : BuildConfig} (tmp a b : hloc) : M unit :=
  RCReference_move_ctor tmp a ;;
  operator_assign a b ;;
  operator_assign b tmp ;;
  RCReference_dtor tmp.

(** Number of [AddRef] calls on [p]. *)
Definition is_add (p : addr) (e : event) : bool :=
  match e with
  | EvAddRef q => bool_decide (q = p)
  | _ => false
  end.

Definition adds (p : addr) (s : State) : nat :=
  count_events (is_add p) (trace s).

(** ** Programs that own objects through handles only *)

(** 1 when the handle [x] holds [p], else 0. *)
Definition holds (p : addr) (x : RCReference) : nat :=
  if decide (pointer_ x = Some p) then 1%nat else 0%nat.

(** Number of live handles whose [pointer_] is [p]. *)
Definition holders_in (m : gmap nat RCReference) (p : addr) : nat :=
  sum_list_with (fun kx => holds p kx.2) (map_to_list m).

Definition holders (s : State) (p : addr) : nat := holders_in (handles s) p.

(** The statements of a client that never keeps a unit in a raw pointer:
    objects are adopted as they are created, and handles are copied, moved,
    assigned, reset to empty, exchanged, destroyed and looked at. *)
Inductive owner_command : Type :=
| OMake (r : hloc) (p : addr)     (* auto r = TakeRef(new SubClass);  *)
| OEmpty (r : hloc)               (* RCReference<T> r;                *)
| OCopy (h r : hloc)              (* auto r = h.CopyRef();            *)
| OMove (r h : hloc)              (* RCReference<T> r(std::move(h));  *)
| OUpcast (r h : hloc)            (* RCReference<Base> r(std::move(h)); *)
| OAssign (h other : hloc)        (* h = std::move(other);            *)
| ODestroy (h : hloc)             (* h goes out of scope              *)
| OReset (h : hloc)               (* h.reset();                       *)
| OSwap (h other : hloc)          (* swap(h, other);                  *)
| OTransfer (h other : hloc)      (* h.reset(other.release());        *)
| OGet (h : hloc)                 (* h.get()                          *)
| OBool (h : hloc)                (* if (h)                           *)
| OStar (h : hloc)                (* *h                               *)
| OIsUnique (h : hloc)            (* h->IsUnique()                    *)
| OGetNum.                        (* GetNumReferenceCountedObjects()  *)

Section Owner.

Context {cfg : BuildConfig}.

Definition exec_owner (c : owner_command) : M unit :=
  match c with
  | OMake r p => ReferenceCounted_ctor p ;; TakeRef r (Some p)
  | OEmpty r => RCReference_ctor r
  | OCopy h r => CopyRef h r
  | OMove r h => RCReference_move_ctor r h
  | OUpcast r h => RCReference_converting_ctor r h
  | OAssign h other => operator_assign h other
  | ODestroy h => RCReference_dtor h
  | OReset h => reset h nullptr
  | OSwap h other => free_swap h other
  | OTransfer h other => (p <- release other ;; reset h p)
  | OGet h => get h ;; ret tt
  | OBool h => operator_bool h ;; ret tt
  | OStar h => operator_star h ;; ret tt
  | OIsUnique h => (p <- operator_arrow h ;; arrow p IsUnique) ;; ret tt
  | OGetNum => GetNumReferenceCountedObjects ;; ret tt
  end.

(** The states of such clients, as long as fewer than [2^32] handles are
    alive at a time. *)
Inductive owner_reachable : State -> Prop :=
| owner_start : owner_reachable initial_state
| owner_step s c s' :
    owner_reachable s ->
    exec_owner c s = Ok tt s' ->
    Z.of_nat (size (handles s')) < UINT_MODULUS ->
    owner_reachable s'.

(** The arguments of a statement make sense in [s]: handles that are used
    are alive, storage that is initialised is fresh, and [*h] and [h->] are
    applied to non-empty handles only. *)
Definition well_formed (s : State) (c : owner_command) : Prop :=
  match c with
  | OMake r p => handles s !! r = None /\ objs s !! p = None
  | OEmpty r => handles s !! r = None
  | OCopy h r | OMove r h | OUpcast r h =>
      is_Some (handles s !! h) /\ handles s !! r = None
  | OAssign h other | OSwap h other | OTransfer h other =>
      is_Some (handles s !! h) /\ is_Some (handles s !! other)
  | ODestroy h | OReset h | OGet h | OBool h => is_Some (handles s !! h)
  | OStar h | OIsUnique h => exists p, pointer_of s h = Some (Some p)
  | OGetNum => True
  end.

(** The statement does not drop the last unit of an object: the handle it
    assigns to, resets or destroys is empty, or another handle holds the
    same object. *)
Definition spares_objects (s : State) (c : owner_command) : Prop :=
  match c with
  | OAssign h _ | ODestroy h | OReset h | OTransfer h _ =>
      forall q, pointer_of s h = Some (Some q) -> holders s q <> 1%nat
  | _ => True
  end.

End Owner.

Section Dropped.

Context {cfg : BuildConfig}.

(** What a drop of the pointer [d] leaves of the objects. *)
Definition dropped (d : ptr) (s s' : State) : Prop :=
  match d with
  | Some q => exists s1, DropRef q s = Ok tt s1 /\ objs s' = objs s1
  | None => objs s' = objs s
  end.

End Dropped.

(** Every live object is counted once per handle that holds it, some handle
    holds it, and no handle holds an object that is gone. *)
Definition handle_invariant (s : State) : Prop :=
  (forall p o, objs s !! p = Some o ->
     ref_count_ o = Z.of_nat (holders s p) /\ (0 < holders s p)%nat) /\
  (forall p, objs s !! p = None -> holders s p = 0%nat).

(** ** Threads: calls and units *)

(** As [created], with no call on the address recorded at all. *)
Definition created_fresh (obj : addr) (c : conf) : Prop :=
  created obj c /\
  drops obj (mem c) = 0%nat /\
  adds obj (mem c) = 0%nat.

(** ** Assertions *)

(** [m] never ends in a failed assertion. *)
Definition never_aborts {A} (m : M A) : Prop := forall s, m s <> Abort.

(** The calls whose body contains an [assert]. *)
Definition has_assert (c : command) : bool :=
  match c with
  | Delete _ | HandleStar _ | HandleArrow _ => true
  | _ => false
  end.

(** * Counted objects that own handles

    A [SubClass] may have [RCReference] data members.  Its default hook,
    [delete static_cast<SubClass*>(this)], then runs the destructors of
    these members, in reverse order of declaration, before the destructor of
    the [ReferenceCounted] base: one [DropRef] can destroy a chain of
    objects and end the storage of the handles they own.  The definitions
    above are those of a [SubClass] without such members; the module below
    has them.  A destruction nests as deep as the chain is long, so
    [DropRef] takes the depth it may use as fuel. *)
Module Members.

(** The [ReferenceCounted] base of an object and the storage locations of
    the [RCReference] data members of its [SubClass], in declaration
    order. *)
Record Counted : Type := mkCounted { ref_count_ : Z; members : list nat }.

Record State : Type := mkState {
  objs : gmap positive Counted;
  total_reference_counted_objects : Z;
  handles : gmap nat RCReference;
  trace : list event
}.

Definition set_objs (f : gmap positive Counted -> gmap positive Counted)
    (s : State) : State :=
  mkState (f (objs s)) (total_reference_counted_objects s) (handles s) (trace s).

Definition set_total (f : Z -> Z) (s : State) : State :=
  mkState (objs s) (f (total_reference_counted_objects s)) (handles s) (trace s).

Definition set_handles (f : gmap nat RCReference -> gmap nat RCReference)
    (s : State) : State :=
  mkState (objs s) (total_reference_counted_objects s) (f (handles s)) (trace s).

Definition log (e : event) (s : State) : State :=
  mkState (objs s) (total_reference_counted_objects s) (handles s) (e :: trace s).

Inductive result (A : Type) : Type :=
| Ok (a : A) (s : State)
| Abort          (* a failed [assert] *)
| Undefined      (* undefined behaviour *)
| OutOfFuel.     (* the destruction nests deeper than the fuel allows *)

Arguments Ok {A} a s.
Arguments Abort {A}.
Arguments Undefined {A}.
Arguments OutOfFuel {A}.

Definition M (A : Type) : Type := State -> result A.

Definition ret {A} (a : A) : M A := fun s => Ok a s.

Definition bind {A B} (m : M A) (k : A -> M B) : M B :=
  fun s => match m s with
           | Ok a s' => k a s'
           | Abort => Abort
           | Undefined => Undefined
           | OutOfFuel => OutOfFuel
           end.

Declare Scope members_scope.
Delimit Scope members_scope with members.

Notation "x <- m ;; k" := (bind m (fun x => k))
  (at level 100, m at next level, right associativity) : members_scope.
Notation "m ;; k" := (bind m (fun _ => k))
  (at level 100, right associativity) : members_scope.

Local Open Scope members_scope.

Definition modify (f : State -> State) : M unit := fun s => Ok tt (f s).
Definition undefined {A} : M A := fun _ => Undefined.
Definition abort {A} : M A := fun _ => Abort.
Definition out_of_fuel {A} : M A := fun _ => OutOfFuel.

Section Program.

Context {cfg : BuildConfig}.

Definition assert_ (cond : M bool) : M unit :=
  if NDEBUG then ret tt
  else b <- cond ;; if b : bool then ret tt else abort.

Definition ref_count_load (this : positive) : M Z :=
  fun s => match objs s !! this with
           | Some o => Ok (ref_count_ o) s
           | None => Undefined
           end.

Definition ref_count_fetch_sub (this : positive) (n : Z) : M Z :=
  fun s => match objs s !! this with
           | Some o =>
               Ok (ref_count_ o)
                  (set_objs <[this := mkCounted (wrap_unsigned (ref_count_ o - n))
                                                (members o)]> s)
           | None => Undefined
           end.

Definition total_fetch_add (n : Z) : M Z :=
  fun s => Ok (total_reference_counted_objects s)
              (set_total (fun t => wrap_size_t (t + n)) s).

Definition total_fetch_sub (n : Z) : M Z :=
  fun s => Ok (total_reference_counted_objects s)
              (set_total (fun t => wrap_size_t (t - n)) s).

(** The data members of the object at [this]. *)
Definition members_of (this : positive) : M (list nat) :=
  fun s => match objs s !! this with
           | Some o => Ok (members o) s
           | None => Undefined
           end.

Definition get_pointer (this : nat) : M (option positive) :=
  fun s => match handles s !! this with
           | Some h => Ok (pointer_ h) s
           | None => Undefined
           end.

Definition set_pointer (this : nat) (v : option positive) : M unit :=
  fun s => match handles s !! this with
           | Some _ => Ok tt (set_handles <[this := mkRCReference v]> s)
           | None => Undefined
           end.

Definition init_pointer (this : nat) (v : option positive) : M unit :=
  fun s => match handles s !! this with
           | Some _ => Undefined
           | None => Ok tt (set_handles <[this := mkRCReference v]> s)
           end.

(** The lifetime of the handle at [this] ends when its destructor starts. *)
Definition end_lifetime (this : nat) : M unit :=
  modify (set_handles (delete this)).

Definition arrow {A} (p : option positive) (f : positive -> M A) : M A :=
  match p with
  | Some a => f a
  | None => undefined
  end.

(** [~ReferenceCounted()], as above. *)
Definition ReferenceCounted_dtor (this : positive) : M unit :=
  fun s => match objs s !! this with
           | None => Undefined
           | Some _ =>
               (assert_ (c <- ref_count_load this ;; ret (c =? 0)) ;;
                total_fetch_sub 1 ;;
                modify (set_objs (delete this))) s
           end.

(** The bodies of [~RCReference()] and of the hook, for a given [DropRef]. *)
Section Destruction.

Variable drop : positive -> M unit.

(** [~RCReference()]. *)
Definition RCReference_dtor_with (this : nat) : M unit :=
  p <- get_pointer this ;;
  end_lifetime this ;;
  if is_nonnull p then arrow p drop else ret tt.

(** The destructors of the data members, in the order given. *)
Fixpoint destroy_members_with (ms : list nat) : M unit :=
  match ms with
  | [] => ret tt
  | m :: ms' => RCReference_dtor_with m ;; destroy_members_with ms'
  end.

(** [Destroy()], the default hook: [delete static_cast<SubClass*>(this)]
    destroys the data members in reverse order of declaration and then the
    [ReferenceCounted] base. *)
Definition Destroy_with (this : positive) : M unit :=
  modify (log (EvDestroy this)) ;;
  ms <- members_of this ;;
  destroy_members_with (rev ms) ;;
  ReferenceCounted_dtor this.

End Destruction.

(** [DropRef()]. *)
Fixpoint DropRef (fuel : nat) (this : positive) : M unit :=
  match fuel with
  | O => out_of_fuel
  | S n =>
      old <- ref_count_fetch_sub this 1 ;;
      modify (log (EvDropRef this old)) ;;
      if old =? 1 then Destroy_with (DropRef n) this else ret tt
  end.

Definition Destroy (fuel : nat) (this : positive) : M unit :=
  Destroy_with (DropRef fuel) this.

Definition RCReference_dtor (fuel : nat) (this : nat) : M unit :=
  RCReference_dtor_with (DropRef fuel) this.

(** [SubClass()] on fresh storage: the [ReferenceCounted] base, then the
    data members [ms], each default-constructed. *)
Fixpoint init_members (ms : list nat) : M unit :=
  match ms with
  | [] => ret tt
  | m :: ms' => init_pointer m None ;; init_members ms'
  end.

Definition SubClass_ctor (this : positive) (ms : list nat) : M unit :=
  fun s => match objs s !! this with
           | Some _ => Undefined
           | None =>
               (modify (set_objs <[this := mkCounted 1 ms]>) ;;
                total_fetch_add 1 ;;
                init_members ms) s
           end.

(** [RCReference(RCReference&& other)]. *)
Definition RCReference_move_ctor (this other : nat) : M unit :=
  v <- get_pointer other ;;
  init_pointer this v ;;
  set_pointer other None.

(** [operator=(RCReference&& other)]. *)
Definition operator_assign (fuel : nat) (this other : nat) : M unit :=
  p <- get_pointer this ;;
  (if is_nonnull p then arrow p (DropRef fuel) else ret tt) ;;
  v <- get_pointer other ;;
  set_pointer this v ;;
  set_pointer other None.

(** [reset(T* pointer)]. *)
Definition reset (fuel : nat) (this : nat) (pointer : option positive) : M unit :=
  p <- get_pointer this ;;
  (if is_nonnull p then arrow p (DropRef fuel) else ret tt) ;;
  set_pointer this pointer.

(** [release()]. *)
Definition release (this : nat) : M (option positive) :=
  tmp <- get_pointer this ;;
  set_pointer this None ;;
  ret tmp.

End Program.

Definition count_of (s : State) (p : positive) : option Z :=
  ref_count_ <$> objs s !! p.

Definition pointer_of (s : State) (h : nat) : option (option positive) :=
  pointer_ <$> handles s !! h.

Definition drops (p : positive) (s : State) : nat :=
  count_events (is_drop p) (trace s).

Definition hook_runs (p : positive) (s : State) : nat :=
  count_events (is_destroy p) (trace s).

(** What a destruction can do to the rest of the state: it ends the
    lifetime of handles but never writes to one that stays, and it only
    adds to the trace. *)
Definition shrinks (s s1 : State) : Prop := handles s1 ⊆ handles s.

Definition grows (s s1 : State) : Prop :=
  forall f, (count_events f (trace s) <= count_events f (trace s1))%nat.

Definition tame {A} (m : M A) : Prop :=
  forall s a s1, m s = Ok a s1 -> shrinks s s1 /\ grows s s1.

(** The object at [p] is as it was unless [DropRef] has been called on it. *)
Definition keeps (p : positive) (s s1 : State) : Prop :=
  drops p s1 = drops p s -> objs s1 !! p = objs s !! p.

(** [m] is tame and leaves alone every object it calls no [DropRef] on. *)
Definition calm {A} (p : positive) (m : M A) : Prop :=
  forall s a s1, m s = Ok a s1 -> shrinks s s1 /\ grows s s1 /\ keeps p s s1.

(** [m] does not depend on what the handle at [b] holds, as long as it
    leaves that handle alive. *)
Definition blind {A} (b : nat) (m : M A) : Prop :=
  forall s a s1 x,
    m s = Ok a s1 ->
    is_Some (handles s1 !! b) ->
    m (set_handles <[b := x]> s) = Ok a (set_handles <[b := x]> s1).

(** [m] does not run out of fuel from [s]. *)
Definition fueled {A} (m : M A) (s : State) : Prop := m s <> OutOfFuel.

(** ** Example states *)

(** One object without members, held by the handle at location 0. *)
Definition st_single : State :=
  mkState {[5%positive := mkCounted 1 []]} 1
          {[0%nat := mkRCReference (Some 5%positive)]} [].

(** Two objects without members, each held by one handle. *)
Definition st_pair : State :=
  mkState {[5%positive := mkCounted 1 []; 6%positive := mkCounted 1 []]} 2
          {[0%nat := mkRCReference (Some 5%positive);
            1%nat := mkRCReference (Some 6%positive)]} [].

(** A list of two nodes.  [head], at location 0, holds node 5; the data
    member [next] of node 5, at location 10, holds node 6; the [next] of
    node 6, at location 11, is empty. *)
Definition st_list : State :=
  mkState {[5%positive := mkCounted 1 [10%nat];
            6%positive := mkCounted 1 [11%nat]]} 2
          {[0%nat := mkRCReference (Some 5%positive);
            10%nat := mkRCReference (Some 6%positive);
            11%nat := mkRCReference None]} [].

(** Node 5 is held by the handle at 0 and owns, in its member at 10, a unit
    of object 6; the handle at 1 holds object 6 too. *)
Definition st_owner : State :=
  mkState {[5%positive := mkCounted 1 [10%nat];
            6%positive := mkCounted 2 []]} 2
          {[0%nat := mkRCReference (Some 5%positive);
            1%nat := mkRCReference (Some 6%positive);
            10%nat := mkRCReference (Some 6%positive)]} [].

End Members.

(** ** The two models on objects without members *)

(** A state of [Members] without the member lists. *)
Definition forget (s : Members.State) : State :=
  mkState ((fun o => mkReferenceCounted (Members.ref_count_ o)) <$> Members.objs s)
          (Members.total_reference_counted_objects s)
          (Members.handles s)
          (Members.trace s).

(** [DropRef] of [Members], where it returns, is the [DropRef] above. *)
Definition DropRef_agrees `{cfg : BuildConfig} (fuel : nat) (d : addr)
    (s : Members.State) : Prop :=
  forall s1,
    Members.DropRef fuel d s = Members.Ok tt s1 ->
    DropRef d (forget s) = Ok tt (forget s1).
(** * Properties *)

(** ** Equations of the primitive actions *)

(** Symbolic execution of a monadic program on a state whose lookups are
    known. *)
Ltac mrun :=
  repeat (unfold bind, ret, modify, abort, undefined, arrow, assert_,
            get_pointer, set_pointer, init_pointer, ref_count_load,
            ref_count_fetch_add, ref_count_fetch_sub, total_fetch_add,
            total_fetch_sub;
          simpl;
          rewrite ?lookup_insert_eq, ?lookup_delete_eq).

Tactic Notation "mrun" "using" tactic3(tac) :=
  repeat (progress (mrun; try tac)).

Lemma bind_Ok {A B} (m : M A) (k : A -> M B) s a s1 :
  m s = Ok a s1 -> bind m k s = k a s1.
Proof. unfold bind. intros ->. reflexivity. Qed.

Lemma bind_assoc {A B C} (m : M A) (k : A -> M B) (j : B -> M C) s :
  bind (bind m k) j s = bind m (fun a => bind (k a) j) s.
Proof. unfold bind. destruct (m s); reflexivity. Qed.

Lemma get_pointer_Ok s this h :
  handles s !! this = Some h -> get_pointer this s = Ok (pointer_ h) s.
Proof. unfold get_pointer. intros ->. reflexivity. Qed.

Lemma set_pointer_Ok s this h v :
  handles s !! this = Some h ->
  set_pointer this v s = Ok tt (set_handles <[this := mkRCReference v]> s).
Proof. unfold set_pointer. intros ->. reflexivity. Qed.

Lemma init_pointer_Ok s this v :
  handles s !! this = None ->
  init_pointer this v s = Ok tt (set_handles <[this := mkRCReference v]> s).
Proof. unfold init_pointer. intros ->. reflexivity. Qed.

Lemma State_eq s1 s2 :
  objs s1 = objs s2 ->
  total_reference_counted_objects s1 = total_reference_counted_objects s2 ->
  handles s1 = handles s2 ->
  trace s1 = trace s2 ->
  s1 = s2.
Proof. destruct s1, s2; simpl; intros; subst; reflexivity. Qed.

Lemma pointer_of_Some s this v :
  pointer_of s this = Some v <-> handles s !! this = Some (mkRCReference v).
Proof.
  unfold pointer_of. split.
  - destruct (handles s !! this) as [[w]|]; simpl; intros [=]; subst; reflexivity.
  - intros ->. reflexivity.
Qed.

Lemma count_of_Some s p c :
  count_of s p = Some c <-> objs s !! p = Some (mkReferenceCounted c).
Proof.
  unfold count_of. split.
  - destruct (objs s !! p) as [[w]|]; simpl; intros [=]; subst; reflexivity.
  - intros ->. reflexivity.
Qed.

Lemma DropRef_live `{cfg : BuildConfig} s p o :
  objs s !! p = Some o ->
  DropRef p s =
    Ok tt (if ref_count_ o =? 1 then after_destroy p s
           else after_decrement p (ref_count_ o) s).
Proof.
  intros Hp. unfold DropRef, bind, ref_count_fetch_sub, modify. rewrite Hp.
  destruct (Z.eqb_spec (ref_count_ o) 1) as [E|E]; [|reflexivity].
  rewrite E.
  unfold Destroy, delete_, ReferenceCounted_dtor, assert_.
  destruct NDEBUG;
    repeat (unfold bind, modify, ref_count_load, total_fetch_sub, ret, abort;
            simpl; rewrite ?lookup_insert_eq);
    (f_equal; apply State_eq; simpl; [apply delete_insert_eq|reflexivity..]).
Qed.

Lemma AddRef_live `{cfg : BuildConfig} s p o :
  objs s !! p = Some o ->
  AddRef p s =
    Ok tt (log (EvAddRef p)
             (set_objs <[p := mkReferenceCounted (wrap_unsigned (ref_count_ o + 1))]> s)).
Proof.
  intros Hp. unfold AddRef, bind, ref_count_fetch_add, modify. rewrite Hp.
  reflexivity.
Qed.

Lemma count_events_cons f e tr :
  count_events f (e :: tr) =
    ((if f e then 1 else 0) + count_events f tr)%nat.
Proof.
  unfold count_events. rewrite filter_cons.
  destruct (f e); simpl.
  - destruct (decide (true = true)); [reflexivity|congruence].
  - destruct (decide (false = true)); [congruence|reflexivity].
Qed.

(** ** Two scenarios of the design document *)

(** Construct [O], adopt it into [A]; [B = A.CopyRef()] gives a count of 2;
    destroying [A] leaves 1 and the object alive; destroying [B] runs the
    hook, and the live-object counter is back where it started. *)
Example scenario_copy_then_destroy :
  let O := 5%positive in
  let A := 0%nat in
  let B := 1%nat in
  (exists s, run (cfg := debug_build)
               [New O; CallTakeRef A (Some O); HandleCopyRef A B]
               initial_state = Ok tt s /\
             count_of s O = Some 2) /\
  (exists s, run (cfg := debug_build)
               [New O; CallTakeRef A (Some O); HandleCopyRef A B; HandleDtor A]
               initial_state = Ok tt s /\
             count_of s O = Some 1 /\ hook_runs O s = 0%nat) /\
  (exists s, run (cfg := debug_build)
               [New O; CallTakeRef A (Some O); HandleCopyRef A B; HandleDtor A;
                HandleDtor B]
               initial_state = Ok tt s /\
             count_of s O = None /\ hook_runs O s = 1%nat /\
             total_reference_counted_objects s =
               total_reference_counted_objects initial_state).
Proof.
  repeat split; eexists; (split; [vm_compute; reflexivity|]);
    repeat split; reflexivity.
Qed.

(** [FormRef] on a raw pointer to an object with a count of 1 gives 2;
    dropping the original handle leaves 1 and the object alive. *)
Example scenario_FormRef_then_drop_owner :
  let O := 5%positive in
  exists s, run (cfg := debug_build)
              [New O; CallTakeRef 0%nat (Some O); CallFormRef 1%nat (Some O);
               HandleDtor 0%nat]
              initial_state = Ok tt s /\
            count_of s O = Some 1 /\
            pointer_of s 1%nat = Some (Some O) /\
            hook_runs O s = 0%nat.
Proof.
  eexists. split; [vm_compute; reflexivity|]. repeat split; reflexivity.
Qed.

(** The example states are states of programs. *)
Example st_adopted_reachable :
  run (cfg := debug_build) [New 5%positive; CallTakeRef 0%nat (Some 5%positive)]
      initial_state = Ok tt st_adopted.
Proof. reflexivity. Qed.

Example st_shared_reachable :
  run (cfg := debug_build)
      [New 5%positive; CallAddRef 5%positive; CallTakeRef 0%nat (Some 5%positive)]
      initial_state = Ok tt st_shared.
Proof. reflexivity. Qed.

Example st_two_handles_reachable :
  run (cfg := debug_build)
      [New 5%positive; CallTakeRef 0%nat (Some 5%positive); HandleCopyRef 0%nat 1%nat]
      initial_state = Ok tt st_two_handles.
Proof. vm_compute. reflexivity. Qed.

Example st_two_objects_reachable :
  run (cfg := debug_build)
      [New 5%positive; New 6%positive; CallTakeRef 0%nat (Some 5%positive);
       CallTakeRef 1%nat (Some 6%positive)]
      initial_state = Ok tt st_two_objects.
Proof. vm_compute. reflexivity. Qed.

Example st_empty_handle_reachable :
  run (cfg := debug_build) [HandleDefault 0%nat] initial_state =
  Ok tt st_empty_handle.
Proof. reflexivity. Qed.

(** ** The raw-pointer accessor *)

(** C10. [get()] is defined on every handle and in both build
    configurations: it returns the stored pointer and leaves the whole state
    (the handle, every count, the trace of calls) as it was; the result is
    non-null exactly when [operator bool] answers true.  On an empty handle
    [operator*] and [operator->] fail their assertion in a debug build,
    [get()] returns [nullptr]. *)
Theorem get_is_total_and_pure (s : State) (this : hloc) (h : RCReference) :
  handles s !! this = Some h ->
  get this s = Ok (pointer_ h) s /\
  (exists b, operator_bool this s = Ok b s /\
             (b = true <-> pointer_ h <> None)) /\
  (pointer_ h = None ->
     get this s = Ok None s /\
     operator_star (cfg := debug_build) this s = Abort /\
     operator_arrow (cfg := debug_build) this s = Abort).
Proof.
  intros Hh. split; [|split].
  - unfold get. apply get_pointer_Ok, Hh.
  - exists (is_nonnull (pointer_ h)). split.
    + unfold operator_bool, bind, ret. rewrite (get_pointer_Ok _ _ _ Hh).
      reflexivity.
    + destruct (pointer_ h); simpl; split; congruence.
  - intros Hnull. split; [|split].
    + unfold get. rewrite (get_pointer_Ok _ _ _ Hh), Hnull. reflexivity.
    + unfold operator_star, assert_, bind, ret, abort. simpl.
      rewrite (get_pointer_Ok _ _ _ Hh), Hnull. reflexivity.
    + unfold operator_arrow, assert_, bind, ret, abort. simpl.
      rewrite (get_pointer_Ok _ _ _ Hh), Hnull. reflexivity.
Qed.

Lemma get_is_total_and_pure_witness :
  get 0%nat st_empty_handle = Ok None st_empty_handle /\
  operator_star (cfg := debug_build) 0%nat st_empty_handle = Abort.
Proof.
  destruct (get_is_total_and_pure st_empty_handle 0%nat
              (mkRCReference None)) as (_ & _ & H).
  - reflexivity.
  - destruct H as (H1 & H2 & _); [reflexivity|]. split; assumption.
Defined.

(** ** Empty handles *)

(** C8. [TakeRef(nullptr)] builds the same handle as the default
    constructor.  Its [operator bool] is false; its destructor, [release()]
    and [reset(q)] call no [DropRef] and leave every object, the live-object
    counter and the trace of calls untouched: the destructor gives back the
    state before the handle existed, [release()] returns [nullptr] and
    changes nothing, [reset(q)] only stores [q]. *)
Theorem TakeRef_null_is_empty `{cfg : BuildConfig} (s : State) (r : hloc) :
  handles s !! r = None ->
  TakeRef r None s = RCReference_ctor r s /\
  exists s1,
    TakeRef r None s = Ok tt s1 /\
    pointer_of s1 r = Some None /\
    operator_bool r s1 = Ok false s1 /\
    RCReference_dtor r s1 = Ok tt s /\
    release r s1 = Ok None s1 /\
    (forall q, exists s2,
        reset r q s1 = Ok tt s2 /\
        objs s2 = objs s1 /\
        total_reference_counted_objects s2 = total_reference_counted_objects s1 /\
        trace s2 = trace s1 /\
        drops_total s2 = drops_total s1 /\
        pointer_of s2 r = Some q).
Proof.
  intros Hr.
  assert (E : TakeRef r None s =
              Ok tt (set_handles <[r := mkRCReference None]> s)).
  { unfold TakeRef, RCReference_ctor. mrun. rewrite Hr. mrun.
    f_equal. apply State_eq; simpl; try reflexivity. apply insert_insert_eq. }
  split.
  - rewrite E. unfold RCReference_ctor. mrun. rewrite Hr. reflexivity.
  - eexists. split; [exact E|].
    repeat split.
    + unfold pointer_of. simpl. rewrite lookup_insert_eq. reflexivity.
    + unfold operator_bool. mrun. reflexivity.
    + unfold RCReference_dtor. mrun. f_equal.
      apply State_eq; simpl; try reflexivity.
      rewrite delete_insert_eq. apply delete_id, Hr.
    + unfold release. mrun. f_equal.
      apply State_eq; simpl; try reflexivity. apply insert_insert_eq.
    + intros q. eexists. split; [unfold reset; mrun; reflexivity|].
      repeat split.
      unfold pointer_of. simpl. rewrite lookup_insert_eq. reflexivity.
Qed.

Lemma TakeRef_null_is_empty_witness :
  TakeRef 1%nat None st_adopted = RCReference_ctor 1%nat st_adopted.
Proof.
  apply (TakeRef_null_is_empty (cfg := debug_build) st_adopted 1%nat).
  reflexivity.
Defined.

(** ** release and adopt *)

(** C6. [release()] followed by [TakeRef] of the returned pointer gives a
    handle that holds what the original held, while every object (so every
    reference count), the live-object counter and the trace of calls are as
    before; the original is left empty.  Written back into the same handle,
    [h = TakeRef(h.release())], the whole state is as before. *)
Theorem release_then_TakeRef_roundtrip `{cfg : BuildConfig} (s : State)
    (this : hloc) (h : RCReference) :
  handles s !! this = Some h ->
  (forall r, handles s !! r = None ->
     exists s',
       (p <- release this ;; TakeRef r p) s = Ok tt s' /\
       pointer_of s' r = Some (pointer_ h) /\
       pointer_of s' this = Some None /\
       objs s' = objs s /\
       total_reference_counted_objects s' = total_reference_counted_objects s /\
       trace s' = trace s) /\
  (forall tmp, handles s !! tmp = None ->
     (p <- release this ;;
      TakeRef tmp p ;;
      operator_assign this tmp ;;
      RCReference_dtor tmp) s = Ok tt s).
Proof.
  intros Hh. split.
  - intros r Hr.
    assert (Hne : r <> this) by congruence.
    eexists. split.
    { unfold release, TakeRef, RCReference_ctor.
      mrun using (rewrite ?Hh, ?Hr, ?lookup_insert_ne by congruence).
      reflexivity. }
    unfold pointer_of. simpl.
    rewrite lookup_insert_eq.
    rewrite !lookup_insert_ne by congruence. rewrite lookup_insert_eq.
    repeat split.
  - intros tmp Ht.
    assert (Hne : tmp <> this) by congruence.
    unfold release, TakeRef, RCReference_ctor, operator_assign,
      RCReference_dtor.
    mrun using (rewrite ?Hh, ?Ht, ?lookup_insert_ne by congruence).
    f_equal. apply State_eq; simpl; try reflexivity.
    apply map_eq. intros k.
    destruct (decide (k = tmp)) as [->|Hk1].
    { rewrite lookup_delete_eq. symmetry. exact Ht. }
    rewrite lookup_delete_ne by congruence.
    rewrite lookup_insert_ne by congruence.
    destruct (decide (k = this)) as [->|Hk2].
    { rewrite lookup_insert_eq, Hh. destruct h. reflexivity. }
    rewrite !lookup_insert_ne by congruence. reflexivity.
Qed.

Lemma release_then_TakeRef_roundtrip_witness :
  (p <- release 0%nat ;;
   TakeRef 1%nat p ;;
   operator_assign (cfg := debug_build) 0%nat 1%nat ;;
   RCReference_dtor (cfg := debug_build) 1%nat) st_adopted = Ok tt st_adopted.
Proof.
  apply (release_then_TakeRef_roundtrip (cfg := debug_build) st_adopted 0%nat
           (mkRCReference (Some 5%positive))); reflexivity.
Defined.

(** ** Explicit copies *)

(** C5. [CopyRef()] on a handle that holds [p] is [FormRef] on [p]: a second
    handle, in storage of its own, holds [p] too, the original still holds
    it, and the count of [p] is one more (by [fetch_add(1)] on the 32-bit
    counter, hence exactly one more below [UINT_MAX]); one [AddRef] is
    called and no other object changes.  On an empty handle the result is an
    empty handle and nothing else changes. *)
Theorem CopyRef_adds_one_unit (s : State) (this r : hloc) (h : RCReference) :
  handles s !! this = Some h ->
  handles s !! r = None ->
  r <> this /\
  (pointer_ h = None ->
     CopyRef this r s = Ok tt (set_handles <[r := mkRCReference None]> s)) /\
  (forall p o, pointer_ h = Some p -> objs s !! p = Some o ->
     CopyRef this r s = FormRef r (Some p) s /\
     exists s',
       CopyRef this r s = Ok tt s' /\
       count_of s' p = Some (wrap_unsigned (ref_count_ o + 1)) /\
       (0 <= ref_count_ o < UINT_MODULUS - 1 ->
          count_of s' p = Some (ref_count_ o + 1)) /\
       (forall q, q <> p -> objs s' !! q = objs s !! q) /\
       pointer_of s' r = Some (Some p) /\
       pointer_of s' this = Some (Some p) /\
       (forall k, k <> r -> handles s' !! k = handles s !! k) /\
       trace s' = EvAddRef p :: trace s /\
       total_reference_counted_objects s' = total_reference_counted_objects s).
Proof.
  intros Hh Hr.
  assert (Hne : r <> this) by congruence.
  split; [exact Hne|]. split.
  - intros Hnull. unfold CopyRef, RCReference_ctor.
    mrun using (rewrite ?Hh, ?Hnull, ?Hr). reflexivity.
  - intros p o Hp Ho.
    assert (E : CopyRef this r s = FormRef r (Some p) s).
    { unfold CopyRef, get. mrun using (rewrite ?Hh, ?Hp). reflexivity. }
    split; [exact E|]. rewrite E.
    eexists. split.
    { unfold FormRef, RCReference_ctor, AddRef.
      mrun using (rewrite ?Hr, ?Ho). reflexivity. }
    unfold count_of, pointer_of. simpl.
    rewrite !lookup_insert_eq. simpl.
    rewrite !lookup_insert_ne by congruence. rewrite Hh. simpl. rewrite Hp.
    repeat split.
    + intros Hc. unfold wrap_unsigned. rewrite Z.mod_small; [reflexivity|].
      unfold UINT_MODULUS in *. lia.
    + intros q Hq. rewrite lookup_insert_ne by congruence. reflexivity.
    + intros k Hk. rewrite !lookup_insert_ne by congruence. reflexivity.
Qed.

Lemma CopyRef_adds_one_unit_witness :
  exists s',
    CopyRef 0%nat 1%nat st_adopted = Ok tt s' /\
    count_of s' 5%positive = Some 2.
Proof.
  destruct (CopyRef_adds_one_unit st_adopted 0%nat 1%nat
              (mkRCReference (Some 5%positive))) as (_ & _ & H);
    [reflexivity|reflexivity|].
  destruct (H 5%positive (mkReferenceCounted 1)) as (_ & s' & H1 & H2 & _);
    [reflexivity|reflexivity|].
  exists s'. split; [exact H1|exact H2].
Defined.

(** ** Counting hook calls *)

Lemma hook_runs_after_destroy p s :
  hook_runs p (after_destroy p s) = S (hook_runs p s).
Proof.
  unfold hook_runs, after_destroy. simpl.
  rewrite !count_events_cons. simpl.
  rewrite bool_decide_eq_true_2 by reflexivity. reflexivity.
Qed.

Lemma hook_runs_after_decrement p q c s :
  hook_runs p (after_decrement q c s) = hook_runs p s.
Proof.
  unfold hook_runs, after_decrement. simpl.
  rewrite count_events_cons. reflexivity.
Qed.

(** ** Underflow *)

(** C9. [DropRef] on a live object always returns, whatever the counter
    reads, in both build configurations.  When the counter reads 0 it
    becomes [2^32 - 1] and the hook is not called.  In general the hook is
    called (once) exactly when the value read before the decrement is 1. *)
Theorem DropRef_has_no_underflow_check `{cfg : BuildConfig} (s : State)
    (p : addr) (o : ReferenceCounted) :
  objs s !! p = Some o ->
  exists s',
    DropRef p s = Ok tt s' /\
    (ref_count_ o = 0 ->
       count_of s' p = Some (2 ^ 32 - 1) /\ hook_runs p s' = hook_runs p s) /\
    (hook_runs p s' = S (hook_runs p s) <-> ref_count_ o = 1) /\
    (hook_runs p s' = hook_runs p s <-> ref_count_ o <> 1).
Proof.
  intros Hp. eexists. split; [apply (DropRef_live s p o Hp)|].
  destruct (Z.eqb_spec (ref_count_ o) 1) as [E|E].
  - rewrite hook_runs_after_destroy. repeat split; try lia; try congruence.
  - rewrite hook_runs_after_decrement. split; [|split; split; lia || congruence].
    intros E0. split; [|reflexivity].
    rewrite E0. unfold count_of, after_decrement. simpl.
    rewrite lookup_insert_eq. reflexivity.
Qed.

Lemma DropRef_has_no_underflow_check_witness :
  exists s',
    DropRef (cfg := debug_build) 5%positive st_zero_count = Ok tt s' /\
    count_of s' 5%positive = Some 4294967295 /\
    hook_runs 5%positive s' = 0%nat.
Proof.
  destruct (DropRef_has_no_underflow_check (cfg := debug_build) st_zero_count
              5%positive (mkReferenceCounted 0)) as (s' & H1 & H2 & _);
    [reflexivity|].
  destruct H2 as [H2 H3]; [reflexivity|].
  exists s'. split; [exact H1|]. split; [exact H2|exact H3].
Defined.

(** ** The assertion of the destructor *)

(** C2, as stated, fails: built with [NDEBUG], the destructor of an object
    whose count is 1 returns normally; nothing is reported and the object
    is gone. *)
Lemma dtor_with_references_is_silent_under_NDEBUG :
  count_of st_adopted 5%positive = Some 1 /\
  ReferenceCounted_dtor (cfg := release_build) 5%positive st_adopted =
    Ok tt (mkState ∅ 0 (handles st_adopted) []).
Proof. split; reflexivity. Qed.

(** C2, amended.  When an object is destroyed while its count is not zero:
    a build without [NDEBUG] fails the assertion and the process is
    terminated; a build with [NDEBUG] has no check, the destructor
    decrements the live-object counter and ends the object. *)
Theorem dtor_assertion_is_debug_only (s : State) (p : addr) (c : Z) :
  count_of s p = Some c ->
  c <> 0 ->
  ReferenceCounted_dtor (cfg := debug_build) p s = Abort /\
  ReferenceCounted_dtor (cfg := release_build) p s =
    Ok tt (set_objs (delete p) (set_total (fun t => wrap_size_t (t - 1)) s)).
Proof.
  intros Hc Hnz. apply count_of_Some in Hc.
  unfold ReferenceCounted_dtor. rewrite Hc. split.
  - mrun using (rewrite ?Hc). destruct (Z.eqb_spec c 0); [contradiction|].
    reflexivity.
  - mrun using (rewrite ?Hc). reflexivity.
Qed.

Lemma dtor_assertion_is_debug_only_witness :
  ReferenceCounted_dtor (cfg := debug_build) 5%positive st_shared = Abort.
Proof.
  apply (dtor_assertion_is_debug_only st_shared 5%positive 2);
    [reflexivity|lia].
Defined.

(** ** Move construction and move assignment *)

Lemma DropRef_handles `{cfg : BuildConfig} s p o s1 :
  objs s !! p = Some o -> DropRef p s = Ok tt s1 -> handles s1 = handles s.
Proof.
  intros Hp. rewrite (DropRef_live s p o Hp). intros [= <-].
  destruct (ref_count_ o =? 1); reflexivity.
Qed.

Lemma DropRef_drops `{cfg : BuildConfig} s p o s1 :
  objs s !! p = Some o -> DropRef p s = Ok tt s1 ->
  drops p s1 = S (drops p s) /\ drops_total s1 = S (drops_total s).
Proof.
  intros Hp. rewrite (DropRef_live s p o Hp). intros [= <-].
  unfold drops, drops_total.
  destruct (ref_count_ o =? 1); simpl; rewrite !count_events_cons; simpl;
    rewrite ?bool_decide_eq_true_2 by reflexivity; split; reflexivity.
Qed.

Lemma DropRef_other_object `{cfg : BuildConfig} s p o s1 q :
  objs s !! p = Some o -> DropRef p s = Ok tt s1 -> q <> p ->
  objs s1 !! q = objs s !! q.
Proof.
  intros Hp. rewrite (DropRef_live s p o Hp). intros [= <-] Hq.
  destruct (ref_count_ o =? 1); simpl.
  - apply lookup_delete_ne. congruence.
  - apply lookup_insert_ne. congruence.
Qed.

(** The state in which [DropRef] on the live object [p] leaves [s]. *)
Lemma operator_assign_holding `{cfg : BuildConfig} s this other p o v :
  pointer_of s this = Some (Some p) ->
  objs s !! p = Some o ->
  pointer_of s other = Some v ->
  let s1 := if ref_count_ o =? 1 then after_destroy p s
            else after_decrement p (ref_count_ o) s in
  DropRef p s = Ok tt s1 /\
  operator_assign this other s =
    (DropRef p ;; set_pointer this v ;; set_pointer other None) s /\
  operator_assign this other s =
    Ok tt (set_handles
             (fun m => <[other := mkRCReference None]>
                         (<[this := mkRCReference v]> m)) s1).
Proof.
  intros Ht Hp Ho s1.
  apply pointer_of_Some in Ht. apply pointer_of_Some in Ho.
  pose proof (DropRef_live s p o Hp) as HD. fold s1 in HD.
  pose proof (DropRef_handles s p o s1 Hp HD) as Hh.
  assert (E : operator_assign this other s =
              (DropRef p ;; set_pointer this v ;; set_pointer other None) s).
  { unfold operator_assign.
    rewrite (bind_Ok _ _ s (Some p) s) by (apply (get_pointer_Ok _ _ _ Ht)).
    cbn [is_nonnull arrow].
    rewrite !(bind_Ok (DropRef p) _ s tt s1) by exact HD.
    rewrite (bind_Ok _ _ s1 v s1); [reflexivity|].
    apply (get_pointer_Ok s1 other (mkRCReference v)). rewrite Hh. exact Ho. }
  split; [exact HD|]. split; [exact E|].
  rewrite E. rewrite (bind_Ok (DropRef p) _ s tt s1) by exact HD.
  rewrite (bind_Ok _ _ s1 tt _)
    by (apply (set_pointer_Ok s1 this (mkRCReference (Some p)));
        rewrite Hh; exact Ht).
  unfold set_pointer. simpl.
  destruct (decide (this = other)) as [->|Hne].
  - rewrite lookup_insert_eq. reflexivity.
  - rewrite lookup_insert_ne by congruence. rewrite Hh, Ho. reflexivity.
Qed.


(** ** The live-object counter *)

Lemma preserves_ret {A} (P : State -> Prop) (a : A) : preserves P (ret a).
Proof. intros s b s' HP [= _ <-]. exact HP. Qed.

Lemma preserves_bind {A B} (P : State -> Prop) (m : M A) (k : A -> M B) :
  preserves P m -> (forall a, preserves P (k a)) -> preserves P (bind m k).
Proof.
  intros Hm Hk s b s' HP. unfold bind.
  destruct (m s) as [a s1| |] eqn:E; try discriminate.
  intros Hks. exact (Hk a s1 b s' (Hm s a s1 HP E) Hks).
Qed.

Lemma preserves_undefined {A} (P : State -> Prop) :
  preserves P (@undefined A).
Proof. intros s a s' _ [=]. Qed.

Lemma preserves_abort {A} (P : State -> Prop) : preserves P (@abort A).
Proof. intros s a s' _ [=]. Qed.

Lemma preserves_if {A} (P : State -> Prop) (b : bool) (m1 m2 : M A) :
  preserves P m1 -> preserves P m2 -> preserves P (if b then m1 else m2).
Proof. destruct b; auto. Qed.

Lemma preserves_arrow {A} (P : State -> Prop) (p : ptr) (f : addr -> M A) :
  (forall a, preserves P (f a)) -> preserves P (arrow p f).
Proof. intros H. destruct p; simpl; [apply H|apply preserves_undefined]. Qed.

Lemma preserves_assert `{cfg : BuildConfig} (P : State -> Prop) (m : M bool) :
  preserves P m -> preserves P (assert_ m).
Proof.
  intros H. unfold assert_. destruct NDEBUG; [apply preserves_ret|].
  apply preserves_bind; [exact H|].
  intros []; [apply preserves_ret|apply preserves_abort].
Qed.

Create HintDb preserves.

#[local] Hint Resolve preserves_ret preserves_undefined preserves_abort
  preserves_assert preserves_arrow preserves_if : preserves.

Ltac preserves_steps :=
  repeat first
    [ apply preserves_bind; [|intros ?]
    | apply preserves_if
    | apply preserves_arrow; intros ?
    | apply preserves_assert ];
  auto with preserves.

Lemma wrap_size_t_succ (n : nat) :
  wrap_size_t (wrap_size_t (Z.of_nat n) + 1) = wrap_size_t (Z.of_nat (S n)).
Proof.
  unfold wrap_size_t. rewrite Zplus_mod_idemp_l. f_equal. lia.
Qed.

Lemma wrap_size_t_pred (n : nat) :
  (0 < n)%nat ->
  wrap_size_t (wrap_size_t (Z.of_nat n) - 1) = wrap_size_t (Z.of_nat (pred n)).
Proof.
  intros Hn. unfold wrap_size_t. rewrite Zminus_mod_idemp_l. f_equal. lia.
Qed.

Section CounterInvariant.

Context {cfg : BuildConfig}.

Lemma counter_ok_get_pointer h : preserves counter_ok (get_pointer h).
Proof.
  intros s a s' HP. unfold get_pointer.
  destruct (handles s !! h); intros [=]; subst; exact HP.
Qed.

Lemma counter_ok_set_pointer h v : preserves counter_ok (set_pointer h v).
Proof.
  intros s a s' HP. unfold set_pointer.
  destruct (handles s !! h); intros [=]; subst; exact HP.
Qed.

Lemma counter_ok_init_pointer h v : preserves counter_ok (init_pointer h v).
Proof.
  intros s a s' HP. unfold init_pointer.
  destruct (handles s !! h); intros [=]; subst; exact HP.
Qed.

Lemma counter_ok_set_handles f : preserves counter_ok (modify (set_handles f)).
Proof. intros s a s' HP [= _ <-]. exact HP. Qed.

Lemma counter_ok_log e : preserves counter_ok (modify (log e)).
Proof. intros s a s' HP [= _ <-]. exact HP. Qed.

Lemma counter_ok_load p : preserves counter_ok (ref_count_load p).
Proof.
  intros s a s' HP. unfold ref_count_load.
  destruct (objs s !! p); intros [=]; subst; exact HP.
Qed.

Lemma counter_ok_fetch_add p n : preserves counter_ok (ref_count_fetch_add p n).
Proof.
  intros s a s' HP. unfold ref_count_fetch_add.
  destruct (objs s !! p) eqn:E; intros [=]; subst.
  unfold counter_ok in *. simpl.
  rewrite map_size_insert_Some by (rewrite E; eauto). exact HP.
Qed.

Lemma counter_ok_fetch_sub p n : preserves counter_ok (ref_count_fetch_sub p n).
Proof.
  intros s a s' HP. unfold ref_count_fetch_sub.
  destruct (objs s !! p) eqn:E; intros [=]; subst.
  unfold counter_ok in *. simpl.
  rewrite map_size_insert_Some by (rewrite E; eauto). exact HP.
Qed.

Lemma counter_ok_get_num : preserves counter_ok GetNumReferenceCountedObjects.
Proof. intros s a s' HP [= _ <-]. exact HP. Qed.

Lemma ctor_live s p :
  objs s !! p = None ->
  ReferenceCounted_ctor p s =
    Ok tt (set_total (fun t => wrap_size_t (t + 1))
             (set_objs <[p := mkReferenceCounted 1]> s)).
Proof. intros Hp. unfold ReferenceCounted_ctor. rewrite Hp. reflexivity. Qed.

Lemma dtor_Ok s p s' :
  ReferenceCounted_dtor p s = Ok tt s' ->
  is_Some (objs s !! p) /\
  s' = set_objs (delete p) (set_total (fun t => wrap_size_t (t - 1)) s).
Proof.
  unfold ReferenceCounted_dtor.
  destruct (objs s !! p) as [o|] eqn:E; [|discriminate].
  unfold assert_. destruct NDEBUG.
  - mrun. intros [= <-]. split; [eauto|reflexivity].
  - mrun using (rewrite ?E). destruct (ref_count_ o =? 0); [|discriminate].
    intros [= <-]. split; [eauto|reflexivity].
Qed.

Lemma counter_ok_ctor p : preserves counter_ok (ReferenceCounted_ctor p).
Proof.
  intros s [] s' HP. unfold ReferenceCounted_ctor.
  destruct (objs s !! p) eqn:E; [discriminate|].
  mrun. intros [= <-]. unfold counter_ok in *. simpl.
  rewrite map_size_insert_None by exact E. rewrite HP.
  apply wrap_size_t_succ.
Qed.

Lemma counter_ok_dtor p : preserves counter_ok (ReferenceCounted_dtor p).
Proof.
  intros s [] s' HP H. apply dtor_Ok in H as [Hlive ->].
  unfold counter_ok in *. simpl.
  rewrite map_size_delete_Some by exact Hlive. rewrite HP.
  apply wrap_size_t_pred.
  destruct Hlive as [o Ho].
  assert (size (objs s) <> 0%nat); [|lia].
  intros Hz. apply map_size_empty_inv in Hz. rewrite Hz in Ho.
  rewrite lookup_empty in Ho. discriminate.
Qed.

#[local] Hint Resolve counter_ok_get_pointer counter_ok_set_pointer
  counter_ok_init_pointer counter_ok_set_handles counter_ok_log
  counter_ok_load counter_ok_fetch_add counter_ok_fetch_sub
  counter_ok_get_num counter_ok_ctor counter_ok_dtor : preserves.

Lemma counter_ok_AddRef p : preserves counter_ok (AddRef p).
Proof. unfold AddRef. preserves_steps. Qed.

Lemma counter_ok_DropRef p : preserves counter_ok (DropRef p).
Proof. unfold DropRef, Destroy, delete_. preserves_steps. Qed.

#[local] Hint Resolve counter_ok_AddRef counter_ok_DropRef : preserves.

Lemma counter_ok_exec c : preserves counter_ok (exec c).
Proof.
  destruct c; unfold exec, delete_, IsUnique, RCReference_ctor,
    RCReference_move_ctor, operator_assign, RCReference_dtor, reset, release,
    operator_star, operator_arrow, get, operator_bool, swap, CopyRef, FormRef,
    TakeRef, get, RCReference_ctor;
    preserves_steps.
Qed.

Lemma counter_ok_run cs : preserves counter_ok (run cs).
Proof.
  induction cs as [|c cs IH]; simpl.
  - apply preserves_ret.
  - apply preserves_bind; [apply counter_ok_exec|intros _; exact IH].
Qed.

End CounterInvariant.

(** C7. The constructor leaves the new object with a count of 1 and the
    live-object counter one higher; every destructor that returns leaves it
    one lower (both as [size_t] arithmetic) and the object gone.  Hence in
    every state that a program reaches from process start, whatever calls it
    makes, the counter reads the number of live objects: as a [size_t], and
    so exactly that number as long as fewer than [2^64] objects are live. *)
Theorem live_object_counter_invariant `{cfg : BuildConfig} :
  (forall s p, objs s !! p = None ->
     exists s',
       ReferenceCounted_ctor p s = Ok tt s' /\
       count_of s' p = Some 1 /\
       total_reference_counted_objects s' =
         wrap_size_t (total_reference_counted_objects s + 1)) /\
  (forall s p s', ReferenceCounted_dtor p s = Ok tt s' ->
     is_Some (objs s !! p) /\
     objs s' !! p = None /\
     total_reference_counted_objects s' =
       wrap_size_t (total_reference_counted_objects s - 1)) /\
  (forall s, reachable s ->
     total_reference_counted_objects s = wrap_size_t (Z.of_nat (size (objs s))) /\
     (Z.of_nat (size (objs s)) < SIZE_MODULUS ->
        total_reference_counted_objects s = Z.of_nat (size (objs s)))).
Proof.
  split; [|split].
  - intros s p Hp. eexists. split; [apply ctor_live, Hp|].
    unfold count_of. simpl. rewrite lookup_insert_eq. split; reflexivity.
  - intros s p s' H. apply dtor_Ok in H as [Hlive ->]. simpl.
    split; [exact Hlive|]. split; [apply lookup_delete_eq|reflexivity].
  - intros s [cs Hcs].
    assert (H : counter_ok s).
    { apply (counter_ok_run cs initial_state tt s); [|exact Hcs].
      reflexivity. }
    split; [exact H|]. intros Hlt. rewrite H. unfold wrap_size_t.
    apply Z.mod_small. lia.
Qed.

Lemma live_object_counter_invariant_witness :
  total_reference_counted_objects st_adopted = 1.
Proof.
  destruct (live_object_counter_invariant (cfg := debug_build)) as (_ & _ & H).
  destruct (H st_adopted) as [_ H2].
  - exists [New 5%positive; CallTakeRef 0%nat (Some 5%positive)]. reflexivity.
  - apply H2. vm_compute. reflexivity.
Defined.

(** ** Threads and the last unit *)

Lemma sum_list_with_insert {A} (f : A -> nat) (l : list A) (i : nat) (x y : A) :
  l !! i = Some x ->
  (sum_list_with f (<[i := y]> l) + f x = sum_list_with f l + f y)%nat.
Proof.
  revert i. induction l as [|a l IH]; intros [|i] H; simpl in *;
    try discriminate.
  - injection H as ->. lia.
  - specialize (IH i H). lia.
Qed.

Lemma sum_list_with_lookup {A} (f : A -> nat) (l : list A) (i : nat) (x : A) :
  l !! i = Some x -> (f x <= sum_list_with f l)%nat.
Proof.
  revert i. induction l as [|a l IH]; intros [|i] H; simpl in *;
    try discriminate.
  - injection H as ->. lia.
  - specialize (IH i H). lia.
Qed.

Lemma total_units_insert ts t th th' :
  ts !! t = Some th ->
  (total_units (<[t := th']> ts) + units th = total_units ts + units th')%nat.
Proof. apply sum_list_with_insert. Qed.

Lemma pending_insert ts t th th' :
  ts !! t = Some th ->
  (pending (<[t := th']> ts) + (if in_DropRef th then 1 else 0) =
   pending ts + (if in_DropRef th' then 1 else 0))%nat.
Proof.
  apply (sum_list_with_insert (fun x => if in_DropRef x then 1%nat else 0%nat)).
Qed.

Lemma total_units_lookup ts t th :
  ts !! t = Some th -> (units th <= total_units ts)%nat.
Proof. apply sum_list_with_lookup. Qed.

Lemma pending_lookup ts t th :
  ts !! t = Some th -> in_DropRef th = true -> (1 <= pending ts)%nat.
Proof.
  intros H E.
  pose proof (sum_list_with_lookup
                (fun x => if in_DropRef x then 1%nat else 0%nat) ts t th H) as L.
  simpl in L. rewrite E in L. exact L.
Qed.

Section LastUnit.

Context {cfg : BuildConfig}.
Variable obj : addr.

Lemma DropRef_split (s : State) :
  DropRef obj s =
    (old <- DropRef_decrement obj ;;
     if old =? 1 then Destroy obj else ret tt) s.
Proof.
  unfold DropRef, DropRef_decrement, bind, ret.
  destruct (ref_count_fetch_sub obj 1 s); try reflexivity.
Qed.

Lemma DropRef_decrement_live s o :
  objs s !! obj = Some o ->
  DropRef_decrement obj s =
    Ok (ref_count_ o) (after_decrement obj (ref_count_ o) s).
Proof.
  intros Ho. unfold DropRef_decrement. mrun using (rewrite ?Ho). reflexivity.
Qed.

Lemma Destroy_zero s :
  count_of s obj = Some 0 ->
  Destroy obj s =
    Ok tt (set_objs (delete obj)
             (set_total (fun t => wrap_size_t (t - 1)) (log (EvDestroy obj) s))).
Proof.
  intros Hc. apply count_of_Some in Hc.
  unfold Destroy, delete_, ReferenceCounted_dtor, assert_.
  destruct NDEBUG; mrun using (rewrite ?Hc); reflexivity.
Qed.

Lemma last_unit_drops_log e s :
  last_unit_drops obj (log e s) =
    ((if saw_last_unit obj e then 1 else 0) + last_unit_drops obj s)%nat.
Proof. unfold last_unit_drops. simpl. apply count_events_cons. Qed.

Lemma hook_runs_log e s :
  hook_runs obj (log e s) =
    ((if is_destroy obj e then 1 else 0) + hook_runs obj s)%nat.
Proof. unfold hook_runs. simpl. apply count_events_cons. Qed.

Lemma unit_invariant_created c : created obj c -> unit_invariant obj c.
Proof.
  intros (s0 & Hfresh & Hn & Hk & Hctor & Hpool).
  rewrite (ctor_live s0 obj Hfresh) in Hctor. injection Hctor as Hmem.
  unfold unit_invariant. rewrite Hpool, <- Hmem.
  unfold last_unit_drops, hook_runs, count_of in *. simpl.
  rewrite Hn, Hk, lookup_insert_eq. simpl.
  repeat split; try lia; try discriminate.
Qed.

Lemma unit_invariant_step c c' :
  unit_invariant obj c -> tstep obj c c' -> unit_invariant obj c'.
Proof.
  intros (Hn & Hle & H0 & H1) Hstep.
  destruct Hstep as [c t th k s' Ht Hfl Hu Hk Hlt Hadd
                    |c t th old s' Ht Hfl Hu Hdec
                    |c t th s' Ht Hfl Hd
                    |c t u th uh Hne Ht Hu' Hfl Hu
                    |c].
  - (* AddRef *)
    pose proof (total_units_lookup _ _ _ Ht) as HU.
    pose proof (total_units_insert _ t th (mkThread (S (units th)) false) Ht) as HU'.
    pose proof (pending_insert _ t th (mkThread (S (units th)) false) Ht) as HP'.
    simpl in HU', HP'. rewrite Hfl in HP'.
    assert (Hz : last_unit_drops obj (mem c) = 0%nat).
    { destruct (last_unit_drops obj (mem c)) as [|[|]]; [reflexivity| |lia].
      destruct H1 as [HU0 _]; [reflexivity|]. lia. }
    destruct (H0 Hz) as (Hc & Hpos & Hbound).
    rewrite Hc in Hk. injection Hk as <-.
    apply count_of_Some in Hc.
    rewrite (AddRef_live _ _ _ Hc) in Hadd. injection Hadd as <-.
    unfold unit_invariant. simpl.
    rewrite last_unit_drops_log, hook_runs_log. simpl.
    change (last_unit_drops obj (set_objs ?f (mem c)))
      with (last_unit_drops obj (mem c)).
    change (hook_runs obj (set_objs ?f (mem c))) with (hook_runs obj (mem c)).
    rewrite Hz in *.
    split; [lia|]. split; [lia|]. split; [|discriminate].
    intros _. unfold count_of. simpl. rewrite lookup_insert_eq. simpl.
    unfold wrap_unsigned. rewrite Z.mod_small by (unfold UINT_MODULUS in *; lia).
    split; [f_equal; lia|]. split; [lia|]. unfold UINT_MODULUS in *. lia.
  - (* the decrement of DropRef *)
    pose proof (total_units_lookup _ _ _ Ht) as HU.
    pose proof (total_units_insert _ t th (mkThread (pred (units th)) (old =? 1)) Ht)
      as HU'.
    pose proof (pending_insert _ t th (mkThread (pred (units th)) (old =? 1)) Ht)
      as HP'.
    simpl in HU', HP'. rewrite Hfl in HP'.
    assert (Hz : last_unit_drops obj (mem c) = 0%nat).
    { destruct (last_unit_drops obj (mem c)) as [|[|]]; [reflexivity| |lia].
      destruct H1 as [HU0 _]; [reflexivity|]. lia. }
    destruct (H0 Hz) as (Hc & Hpos & Hbound).
    apply count_of_Some in Hc.
    rewrite (DropRef_decrement_live _ _ Hc) in Hdec. simpl in Hdec.
    injection Hdec as <- <-.
    unfold unit_invariant, after_decrement. simpl.
    rewrite last_unit_drops_log, hook_runs_log. simpl.
    change (last_unit_drops obj (set_objs ?f (mem c)))
      with (last_unit_drops obj (mem c)).
    change (hook_runs obj (set_objs ?f (mem c))) with (hook_runs obj (mem c)).
    rewrite bool_decide_eq_true_2 by reflexivity. simpl.
    rewrite Hz in *.
    unfold count_of. simpl. rewrite lookup_insert_eq. simpl.
    unfold wrap_unsigned. rewrite Z.mod_small by (unfold UINT_MODULUS in *; lia).
    destruct (Z.eqb_spec (Z.of_nat (total_units (pool c))) 1) as [E|E]; simpl.
    + split; [lia|]. split; [lia|]. split; [discriminate|].
      intros _. split; [lia|]. split; [|lia].
      intros _. f_equal. lia.
    + split; [lia|]. split; [lia|]. split; [|discriminate].
      intros _. split; [f_equal; lia|]. split; [lia|]. lia.
  - (* the hook of DropRef *)
    pose proof (pending_lookup _ _ _ Ht Hfl) as HP.
    pose proof (total_units_insert _ t th (mkThread (units th) false) Ht) as HU'.
    pose proof (pending_insert _ t th (mkThread (units th) false) Ht) as HP'.
    simpl in HU', HP'. rewrite Hfl in HP'.
    assert (Ho : last_unit_drops obj (mem c) = 1%nat) by lia.
    assert (Hk0 : hook_runs obj (mem c) = 0%nat) by lia.
    destruct (H1 Ho) as (HU0 & Hc & _). specialize (Hc Hk0).
    rewrite (Destroy_zero _ Hc) in Hd. injection Hd as <-.
    unfold unit_invariant. simpl.
    change (last_unit_drops obj (set_objs ?f (set_total ?g ?s)))
      with (last_unit_drops obj s).
    change (hook_runs obj (set_objs ?f (set_total ?g ?s)))
      with (hook_runs obj s).
    rewrite last_unit_drops_log, hook_runs_log. simpl.
    rewrite bool_decide_eq_true_2 by reflexivity.
    rewrite Ho, Hk0 in *. simpl.
    split; [lia|]. split; [lia|]. split; [discriminate|].
    intros _. split; [lia|]. split; [discriminate|].
    intros _. apply lookup_delete_eq.
  - (* a unit moves to another thread *)
    pose proof (total_units_insert _ t th (mkThread (pred (units th)) false) Ht)
      as HU1.
    pose proof (pending_insert _ t th (mkThread (pred (units th)) false) Ht)
      as HP1.
    assert (Hu2 : <[t := mkThread (pred (units th)) false]> (pool c) !! u = Some uh).
    { rewrite list_lookup_insert_ne by congruence. exact Hu'. }
    pose proof (total_units_insert _ u uh
                  (mkThread (S (units uh)) (in_DropRef uh)) Hu2) as HU2.
    pose proof (pending_insert _ u uh
                  (mkThread (S (units uh)) (in_DropRef uh)) Hu2) as HP2.
    simpl in HU1, HP1, HU2, HP2. rewrite Hfl in HP1.
    unfold unit_invariant. simpl.
    assert (EU : total_units
                   (<[u := mkThread (S (units uh)) (in_DropRef uh)]>
                      (<[t := mkThread (pred (units th)) false]> (pool c))) =
                 total_units (pool c)) by lia.
    assert (EP : pending
                   (<[u := mkThread (S (units uh)) (in_DropRef uh)]>
                      (<[t := mkThread (pred (units th)) false]> (pool c))) =
                 pending (pool c)) by lia.
    rewrite EU, EP. repeat split; tauto.
  - (* a thread is created *)
    unfold unit_invariant. simpl.
    assert (EU : total_units (pool c ++ [mkThread 0 false]) = total_units (pool c)).
    { unfold total_units. rewrite sum_list_with_app. simpl. lia. }
    assert (EP : pending (pool c ++ [mkThread 0 false]) = pending (pool c)).
    { unfold pending. rewrite sum_list_with_app. simpl. lia. }
    rewrite EU, EP. repeat split; tauto.
Qed.

Lemma unit_invariant_executes c0 c :
  created obj c0 -> executes obj c0 c -> unit_invariant obj c.
Proof.
  intros Hc Hex. apply unit_invariant_created in Hc.
  induction Hex as [c|c1 c2 c3 Hstep _ IH]; [exact Hc|].
  apply IH. exact (unit_invariant_step c1 c2 Hc Hstep).
Qed.

End LastUnit.

(** C1. [DropRef] is the atomic decrement by one of the 32-bit counter
    followed, exactly when that decrement read 1, by the hook; the default
    hook deletes the object.  Across threads: take an object that has just
    been constructed, and any interleaving of the atomic steps of threads
    that keep the ownership contract.  At every point of the execution at
    most one [DropRef] has read 1 and the hook has run at most once; a
    [DropRef] has read 1 exactly when all units have been released; the
    hook has run exactly once when, in addition, no thread is between its
    decrement and its hook, and that is exactly when the object is gone.
    Until then the object is live for whoever owns a unit, and the hook's
    own [delete] finds a count of 0. *)
Theorem DropRef_destroys_exactly_once `{cfg : BuildConfig} (obj : addr) :
  (forall s o, objs s !! obj = Some o ->
     DropRef obj s =
       (old <- DropRef_decrement obj ;;
        if old =? 1 then Destroy obj else ret tt) s /\
     DropRef_decrement obj s =
       Ok (ref_count_ o) (after_decrement obj (ref_count_ o) s) /\
     count_of (after_decrement obj (ref_count_ o) s) obj =
       Some (wrap_unsigned (ref_count_ o - 1)) /\
     exists s',
       DropRef obj s = Ok tt s' /\
       hook_runs obj s' =
         (hook_runs obj s + if (ref_count_ o =? 1)%Z then 1 else 0)%nat /\
       (ref_count_ o = 1 -> objs s' !! obj = None)) /\
  (forall c0 c, created obj c0 -> executes obj c0 c ->
     (last_unit_drops obj (mem c) <= 1)%nat /\
     (hook_runs obj (mem c) <= 1)%nat /\
     (last_unit_drops obj (mem c) = 1%nat <-> total_units (pool c) = 0%nat) /\
     (hook_runs obj (mem c) = 1%nat <->
        total_units (pool c) = 0%nat /\ pending (pool c) = 0%nat) /\
     (hook_runs obj (mem c) = 1%nat <-> objs (mem c) !! obj = None) /\
     (forall t th, pool c !! t = Some th -> (0 < units th)%nat ->
        exists s', DropRef_decrement obj (mem c) =
                     Ok (Z.of_nat (total_units (pool c))) s') /\
     (forall t th, pool c !! t = Some th -> in_DropRef th = true ->
        exists s', Destroy obj (mem c) = Ok tt s')).
Proof.
  split.
  - intros s o Ho. split; [apply DropRef_split|].
    split; [apply DropRef_decrement_live, Ho|].
    split.
    { unfold count_of, after_decrement. simpl. rewrite lookup_insert_eq.
      reflexivity. }
    eexists. split; [apply (DropRef_live s obj o Ho)|].
    destruct (ref_count_ o =? 1) eqn:E.
    + rewrite hook_runs_after_destroy. split; [lia|].
      intros _. apply lookup_delete_eq.
    + rewrite hook_runs_after_decrement. split; [lia|].
      intros E1. rewrite E1 in E. discriminate.
  - intros c0 c Hc Hex.
    destruct (unit_invariant_executes obj c0 c Hc Hex) as (Hn & Hle & H0 & H1).
    assert (Hcases : last_unit_drops obj (mem c) = 0%nat \/
                     last_unit_drops obj (mem c) = 1%nat) by lia.
    split; [exact Hle|]. split; [lia|].
    destruct Hcases as [Hz|Ho].
    + destruct (H0 Hz) as (Hcount & Hpos & Hbound).
      split; [split; lia|]. split; [split; lia|].
      split.
      { split; [lia|]. intros Hgone. apply count_of_Some in Hcount.
        rewrite Hgone in Hcount. discriminate. }
      split.
      * intros t th Ht Hu. apply count_of_Some in Hcount.
        eexists. apply (DropRef_decrement_live obj _ _ Hcount).
      * intros t th Ht Hfl. pose proof (pending_lookup _ _ _ Ht Hfl). lia.
    + destruct (H1 Ho) as (HU & Hk0 & Hk1).
      split; [split; intros; assumption|]. split; [split; lia|].
      split.
      { split; [exact Hk1|]. intros Hgone.
        destruct (hook_runs obj (mem c)) as [|[|]]; [|reflexivity|lia].
        specialize (Hk0 eq_refl). apply count_of_Some in Hk0.
        rewrite Hgone in Hk0. discriminate. }
      split.
      * intros t th Ht Hu. pose proof (total_units_lookup _ _ _ Ht). lia.
      * intros t th Ht Hfl. pose proof (pending_lookup _ _ _ Ht Hfl).
        eexists. apply Destroy_zero. apply Hk0. lia.
Qed.

Lemma DropRef_destroys_exactly_once_witness :
  hook_runs 5%positive (mem conf_destroyed) = 1%nat <->
  objs (mem conf_destroyed) !! 5%positive = None.
Proof.
  destruct (DropRef_destroys_exactly_once (cfg := debug_build) 5%positive)
    as [_ H].
  destruct (H conf_created conf_destroyed) as (_ & _ & _ & _ & H5 & _).
  - exists initial_state. repeat split; reflexivity.
  - apply (rtc_l _ _ conf_decremented).
    { apply (step_DropRef_decrement 5%positive conf_created 0%nat
               (mkThread 1 false) 1); try reflexivity. simpl. lia. }
    apply (rtc_l _ _ conf_destroyed); [|apply rtc_refl].
    apply (step_DropRef_hook 5%positive conf_decremented 0%nat
             (mkThread 0 true)); reflexivity.
  - exact H5.
Defined.

(** * Further properties of the interface *)

(** ** Frame lemmas *)

Lemma DropRef_dangling `{cfg : BuildConfig} s p :
  objs s !! p = None -> DropRef p s = Undefined.
Proof.
  intros Hp. unfold DropRef, bind, ref_count_fetch_sub. rewrite Hp.
  reflexivity.
Qed.

Lemma DropRef_set_handles `{cfg : BuildConfig} f p s :
  DropRef p (set_handles f s) =
    match DropRef p s with
    | Ok a s1 => Ok a (set_handles f s1)
    | Abort => Abort
    | Undefined => Undefined
    end.
Proof.
  destruct (objs s !! p) as [o|] eqn:Hp.
  - rewrite (DropRef_live s p o Hp).
    rewrite (DropRef_live (set_handles f s) p o) by exact Hp.
    destruct (ref_count_ o =? 1); reflexivity.
  - rewrite (DropRef_dangling s p Hp).
    apply DropRef_dangling. exact Hp.
Qed.

Lemma DropRef_cases `{cfg : BuildConfig} s p :
  (exists s1, DropRef p s = Ok tt s1 /\ handles s1 = handles s) \/
  DropRef p s = Undefined.
Proof.
  destruct (objs s !! p) as [o|] eqn:Hp.
  - left. eexists. split; [apply (DropRef_live s p o Hp)|].
    destruct (ref_count_ o =? 1); reflexivity.
  - right. apply DropRef_dangling, Hp.
Qed.

Lemma eta_RCReference (x : RCReference) : mkRCReference (pointer_ x) = x.
Proof. destruct x. reflexivity. Qed.

(** ** Exchanging two handles *)

Lemma free_swap_defined (s : State) (a b : hloc)
    (x y : RCReference) :
  handles s !! a = Some x ->
  handles s !! b = Some y ->
  exists s', free_swap a b s = Ok tt s'.
Proof.
  intros Ha Hb. unfold free_swap, swap.
  destruct (decide (a = b)) as [->|Hne]; eexists;
    mrun using (rewrite ?Ha, ?Hb, ?lookup_insert_ne by congruence);
    reflexivity.
Qed.

(** X1. [swap] (the member and the free function) exchanges what two live
    handles hold and touches nothing else: no object, no count, no call.
    Swapping twice gives back the state; the two handles may be the same. *)
Theorem swap_exchanges_and_undoes_itself (s : State) (a b : hloc)
    (x y : RCReference) :
  handles s !! a = Some x ->
  handles s !! b = Some y ->
  free_swap a b s = swap a b s /\
  exists s',
    swap a b s = Ok tt s' /\
    pointer_of s' a = Some (pointer_ y) /\
    pointer_of s' b = Some (pointer_ x) /\
    (forall k, k <> a -> k <> b -> handles s' !! k = handles s !! k) /\
    objs s' = objs s /\
    total_reference_counted_objects s' = total_reference_counted_objects s /\
    trace s' = trace s /\
    swap a b s' = Ok tt s.
Proof.
  intros Ha Hb. split; [reflexivity|].
  destruct (decide (a = b)) as [->|Hne].
  - assert (x = y) by congruence. subst y.
    eexists. split.
    { unfold swap. mrun using (rewrite ?Hb). reflexivity. }
    unfold pointer_of. simpl. rewrite !lookup_insert_eq.
    repeat split.
    + intros k Hk _. rewrite !lookup_insert_ne by congruence. reflexivity.
    + unfold swap. mrun. f_equal. apply State_eq; simpl; try reflexivity.
      rewrite !insert_insert_eq. rewrite eta_RCReference.
      apply insert_id, Hb.
  - eexists. split.
    { unfold swap.
      mrun using (rewrite ?Ha, ?Hb, ?lookup_insert_ne by congruence).
      reflexivity. }
    unfold pointer_of. simpl.
    rewrite lookup_insert_eq, lookup_insert_ne by congruence.
    rewrite lookup_insert_eq.
    repeat split.
    + intros k Hk1 Hk2. rewrite !lookup_insert_ne by congruence. reflexivity.
    + unfold swap.
      mrun using (rewrite ?lookup_insert_ne by congruence).
      f_equal. apply State_eq; simpl; try reflexivity.
      apply map_eq. intros k.
      destruct (decide (k = b)) as [->|Hkb].
      { rewrite lookup_insert_eq, eta_RCReference. symmetry. exact Hb. }
      rewrite lookup_insert_ne by congruence.
      destruct (decide (k = a)) as [->|Hka].
      { rewrite lookup_insert_eq, eta_RCReference. symmetry. exact Ha. }
      rewrite !lookup_insert_ne by congruence. reflexivity.
Qed.

Lemma swap_exchanges_and_undoes_itself_witness :
  exists s',
    swap 0%nat 1%nat st_two_objects = Ok tt s' /\
    swap 0%nat 1%nat s' = Ok tt st_two_objects.
Proof.
  destruct (swap_exchanges_and_undoes_itself st_two_objects 0%nat 1%nat
              (mkRCReference (Some 5%positive)) (mkRCReference (Some 6%positive)))
    as (_ & s' & H1 & _ & _ & _ & _ & _ & _ & H2); [reflexivity|reflexivity|].
  exists s'. split; [exact H1|exact H2].
Defined.

(** X13. Exchanging two live handles by three moves through a temporary,
    as the generic [std::swap] would, ends in the same state as [swap]: in
    particular none of the two move assignments calls [DropRef]. *)
Theorem swap_by_moves_is_swap `{cfg : BuildConfig} (s : State)
    (tmp a b : hloc) (x y : RCReference) :
  handles s !! a = Some x ->
  handles s !! b = Some y ->
  handles s !! tmp = None ->
  swap_by_moves tmp a b s = swap a b s.
Proof.
  intros Ha Hb Ht.
  assert (Hta : tmp <> a) by congruence.
  assert (Htb : tmp <> b) by congruence.
  unfold swap_by_moves, swap, RCReference_move_ctor, operator_assign,
    RCReference_dtor.
  destruct (decide (a = b)) as [->|Hne].
  - assert (x = y) by congruence. subst y.
    mrun using (rewrite ?Hb, ?Ht, ?lookup_insert_ne by congruence).
    f_equal. apply State_eq; simpl; try reflexivity.
    apply map_eq. intros k.
    destruct (decide (k = tmp)) as [->|Hk].
    { rewrite lookup_delete_eq, !lookup_insert_ne by congruence.
      symmetry. exact Ht. }
    rewrite lookup_delete_ne by congruence.
    rewrite lookup_insert_ne by congruence.
    destruct (decide (k = b)) as [->|Hkb].
    { rewrite !lookup_insert_eq. reflexivity. }
    rewrite !lookup_insert_ne by congruence. reflexivity.
  - mrun using (rewrite ?Ha, ?Hb, ?Ht, ?lookup_insert_ne by congruence).
    f_equal. apply State_eq; simpl; try reflexivity.
    apply map_eq. intros k.
    destruct (decide (k = tmp)) as [->|Hk].
    { rewrite lookup_delete_eq, !lookup_insert_ne by congruence.
      symmetry. exact Ht. }
    rewrite lookup_delete_ne by congruence.
    rewrite lookup_insert_ne by congruence.
    destruct (decide (k = b)) as [->|Hkb].
    { rewrite !lookup_insert_eq. reflexivity. }
    rewrite !(lookup_insert_ne _ b) by congruence.
    destruct (decide (k = a)) as [->|Hka].
    { rewrite !lookup_insert_eq. reflexivity. }
    rewrite !lookup_insert_ne by congruence. reflexivity.
Qed.

Lemma swap_by_moves_is_swap_witness :
  swap_by_moves (cfg := debug_build) 2%nat 0%nat 1%nat st_two_objects =
  swap 0%nat 1%nat st_two_objects.
Proof.
  apply (swap_by_moves_is_swap (cfg := debug_build) st_two_objects 2%nat 0%nat
           1%nat (mkRCReference (Some 5%positive))
           (mkRCReference (Some 6%positive))); reflexivity.
Defined.

(** ** Handing a unit over *)

Lemma reset_release_cases `{cfg : BuildConfig} (s : State) (a b : hloc) :
  (a <> b ->
     (p <- release b ;; reset a p) s = operator_assign a b s) /\
  (a = b -> is_Some (handles s !! a) ->
     (p <- release b ;; reset a p) s = Ok tt s).
Proof.
  split.
  - intros Hne. unfold release, reset, operator_assign.
    destruct (handles s !! b) as [y|] eqn:Hb;
      destruct (handles s !! a) as [x|] eqn:Ha;
      mrun using (rewrite ?Ha, ?Hb, ?lookup_insert_ne by congruence);
      try reflexivity.
    + destruct x as [[q|]]; simpl.
      * change (mkState (objs s) (total_reference_counted_objects s)
                  (<[b := mkRCReference None]> (handles s)) (trace s))
          with (set_handles <[b := mkRCReference None]> s).
        rewrite DropRef_set_handles.
        destruct (DropRef_cases s q) as [(s1 & HD & Hh)|HD]; rewrite HD;
          [|reflexivity].
        mrun using (rewrite ?Hh, ?Ha, ?Hb, ?lookup_insert_ne by congruence).
        f_equal. apply State_eq; simpl; try reflexivity.
        rewrite Hh. apply insert_insert_ne. congruence.
      * mrun using (rewrite ?Ha, ?Hb, ?lookup_insert_ne by congruence).
        f_equal. apply State_eq; simpl; try reflexivity.
        apply insert_insert_ne. congruence.
    + destruct x as [[q|]]; simpl.
      * destruct (DropRef_cases s q) as [(s1 & HD & Hh)|HD]; rewrite HD;
          [|reflexivity].
        rewrite Hh, Hb. reflexivity.
      * mrun using (rewrite ?Ha, ?Hb). reflexivity.
  - intros -> [x Ha]. unfold release, reset.
    mrun using (rewrite ?Ha). f_equal.
    apply State_eq; simpl; try reflexivity.
    rewrite insert_insert_eq, eta_RCReference. apply insert_id, Ha.
Qed.

(** X5. A handle that has been moved from, by the move constructor or by
    the converting constructor, owns nothing: destroying it calls no
    [DropRef], and the unit has only changed its place.  The same holds
    after [release()]: the handle is destroyed without a call, so the unit
    it held stays counted until the caller drops it. *)
Theorem moved_from_handle_owns_nothing `{cfg : BuildConfig} (s : State)
    (r h : hloc) (v : ptr) :
  handles s !! r = None ->
  pointer_of s h = Some v ->
  (RCReference_move_ctor r h ;; RCReference_dtor h) s =
    Ok tt (set_handles (fun m => <[r := mkRCReference v]> (delete h m)) s) /\
  (RCReference_converting_ctor r h ;; RCReference_dtor h) s =
    Ok tt (set_handles (fun m => <[r := mkRCReference v]> (delete h m)) s) /\
  (release h ;; RCReference_dtor h) s = Ok tt (set_handles (delete h) s).
Proof.
  intros Hr Hh. apply pointer_of_Some in Hh.
  assert (Hne : r <> h) by congruence.
  assert (E : delete h (<[h := mkRCReference None]>
                          (<[r := mkRCReference v]> (handles s))) =
              <[r := mkRCReference v]> (delete h (handles s))).
  { rewrite delete_insert_eq. apply delete_insert_ne. congruence. }
  split; [|split].
  - unfold RCReference_move_ctor, RCReference_dtor.
    mrun using (rewrite ?Hh, ?Hr, ?lookup_insert_ne by congruence).
    f_equal. apply State_eq; simpl; try reflexivity. exact E.
  - unfold RCReference_converting_ctor, RCReference_dtor.
    mrun using (rewrite ?Hh, ?Hr, ?lookup_insert_ne by congruence).
    f_equal. apply State_eq; simpl; try reflexivity. exact E.
  - unfold release, RCReference_dtor.
    mrun using (rewrite ?Hh). f_equal.
    apply State_eq; simpl; try reflexivity. apply delete_insert_eq.
Qed.

Lemma moved_from_handle_owns_nothing_witness :
  (release 0%nat ;; RCReference_dtor (cfg := debug_build) 0%nat) st_adopted =
  Ok tt (set_handles (delete 0%nat) st_adopted).
Proof.
  apply (moved_from_handle_owns_nothing (cfg := debug_build) st_adopted 1%nat
           0%nat (Some 5%positive)); reflexivity.
Defined.

(** ** Dereferencing *)

(** X10. On a handle that holds a live object, [operator*] and [operator->]
    return that object and change nothing, in both builds.  With [NDEBUG],
    [operator->] on an empty handle returns [nullptr] like [get()], without
    any report, and [operator*] on it is undefined behaviour.  [operator->]
    differs from [get()] only on an empty handle in a build with
    assertions. *)
Theorem dereference_behaviour `{cfg : BuildConfig} (s : State) (h : hloc)
    (x : RCReference) :
  handles s !! h = Some x ->
  (forall p, pointer_ x = Some p -> is_Some (objs s !! p) ->
     operator_star h s = Ok p s /\ operator_arrow h s = Ok (Some p) s) /\
  (pointer_ x = None ->
     operator_arrow (cfg := release_build) h s = Ok None s /\
     operator_star (cfg := release_build) h s = Undefined) /\
  (pointer_ x <> None \/ NDEBUG = true -> operator_arrow h s = get h s).
Proof.
  intros Hh. split; [|split].
  - intros p Hp [o Ho]. unfold operator_star, operator_arrow, assert_.
    destruct NDEBUG; mrun using (rewrite ?Hh, ?Hp, ?Ho); split; reflexivity.
  - intros Hp. unfold operator_star, operator_arrow, assert_. simpl.
    mrun using (rewrite ?Hh, ?Hp). split; reflexivity.
  - intros Hor. unfold operator_arrow, get, assert_.
    destruct NDEBUG eqn:E.
    + mrun. reflexivity.
    + destruct Hor as [Hp|Hp]; [|discriminate].
      destruct (pointer_ x) as [p|] eqn:Ep; [|contradiction].
      mrun using (rewrite ?Hh, ?Ep). reflexivity.
Qed.

Lemma dereference_behaviour_witness :
  operator_arrow (cfg := release_build) 0%nat st_empty_handle =
    Ok None st_empty_handle /\
  operator_star (cfg := release_build) 0%nat st_empty_handle = Undefined.
Proof.
  destruct (dereference_behaviour (cfg := debug_build) st_empty_handle 0%nat
              (mkRCReference None)) as (_ & H & _); [reflexivity|].
  apply H. reflexivity.
Defined.

(** ** Uniqueness, increments and their edges *)

Lemma wrap_unsigned_small z :
  0 <= z < UINT_MODULUS -> wrap_unsigned z = z.
Proof. intros H. unfold wrap_unsigned. apply Z.mod_small. exact H. Qed.

Lemma wrap_unsigned_succ_pred c :
  0 <= c < UINT_MODULUS -> wrap_unsigned (wrap_unsigned (c + 1) - 1) = c.
Proof.
  intros H. unfold wrap_unsigned. rewrite Zminus_mod_idemp_l.
  replace (c + 1 - 1) with c by lia. apply Z.mod_small. exact H.
Qed.

Lemma wrap_unsigned_succ_is_1 c :
  0 <= c < UINT_MODULUS -> (wrap_unsigned (c + 1) =? 1) = (c =? 0).
Proof.
  intros H. unfold wrap_unsigned, UINT_MODULUS in *.
  destruct (Z.eq_dec c (2 ^ 32 - 1)) as [->|Hc].
  - reflexivity.
  - rewrite Z.mod_small by lia.
    destruct (Z.eqb_spec (c + 1) 1), (Z.eqb_spec c 0); try reflexivity; lia.
Qed.

(** X4. [IsUnique()] on a live object answers whether its counter reads 1
    and changes nothing; on a dangling pointer it is undefined behaviour.
    It answers true exactly when a [DropRef] issued in the same state would
    run the hook and end the object. *)
Theorem IsUnique_predicts_the_last_drop `{cfg : BuildConfig} (s : State)
    (p : addr) :
  (objs s !! p = None -> IsUnique p s = Undefined) /\
  (forall o, objs s !! p = Some o ->
     IsUnique p s = Ok (ref_count_ o =? 1) s /\
     exists s',
       DropRef p s = Ok tt s' /\
       ((ref_count_ o =? 1) = true <-> objs s' !! p = None) /\
       ((ref_count_ o =? 1) = true <-> hook_runs p s' = S (hook_runs p s))).
Proof.
  split.
  - intros Hp. unfold IsUnique. mrun using (rewrite ?Hp). reflexivity.
  - intros o Ho. split.
    { unfold IsUnique. mrun using (rewrite ?Ho). reflexivity. }
    eexists. split; [apply (DropRef_live s p o Ho)|].
    destruct (ref_count_ o =? 1).
    + rewrite hook_runs_after_destroy. simpl. rewrite lookup_delete_eq.
      repeat split.
    + rewrite hook_runs_after_decrement. unfold after_decrement. simpl.
      rewrite lookup_insert_eq. repeat split; try discriminate. lia.
Qed.

Lemma IsUnique_predicts_the_last_drop_witness :
  IsUnique 5%positive st_shared = Ok false st_shared.
Proof.
  destruct (IsUnique_predicts_the_last_drop (cfg := debug_build) st_shared
              5%positive) as [_ H].
  destruct (H (mkReferenceCounted 2)) as [H1 _]; [reflexivity|].
  exact H1.
Defined.

(** X3. Taking a new reference with [FormRef] and destroying the handle it
    returned is neutral for every counter value from 1 to [UINT_MAX]: the
    objects with their counts, the handles and the live-object counter are
    as before, and the hook is not called.  What remains is one [AddRef]
    and one [DropRef] in the trace. *)
Theorem FormRef_then_destroy_is_neutral `{cfg : BuildConfig} (s : State)
    (r : hloc) (p : addr) (o : ReferenceCounted) :
  handles s !! r = None ->
  objs s !! p = Some o ->
  0 < ref_count_ o < UINT_MODULUS ->
  (FormRef r (Some p) ;; RCReference_dtor r) s =
    Ok tt (log (EvDropRef p (wrap_unsigned (ref_count_ o + 1)))
             (log (EvAddRef p) s)).
Proof.
  intros Hr Ho Hc.
  pose proof (wrap_unsigned_succ_is_1 (ref_count_ o) ltac:(lia)) as E1.
  destruct (Z.eqb_spec (ref_count_ o) 0) as [|_]; [lia|].
  unfold FormRef, RCReference_ctor, AddRef, RCReference_dtor, DropRef.
  mrun using (rewrite ?Hr, ?Ho, ?E1).
  f_equal. apply State_eq; simpl; try reflexivity.
  - rewrite insert_insert_eq.
    rewrite wrap_unsigned_succ_pred by lia.
    destruct o. apply insert_id. exact Ho.
  - rewrite !delete_insert_eq. apply delete_id, Hr.
Qed.

Lemma FormRef_then_destroy_is_neutral_witness :
  (FormRef 1%nat (Some 5%positive) ;;
   RCReference_dtor (cfg := debug_build) 1%nat) st_adopted =
  Ok tt (log (EvDropRef 5%positive 2) (log (EvAddRef 5%positive) st_adopted)).
Proof.
  apply (FormRef_then_destroy_is_neutral (cfg := debug_build) st_adopted 1%nat
           5%positive (mkReferenceCounted 1)); [reflexivity|reflexivity|].
  unfold UINT_MODULUS. simpl. lia.
Defined.

(** X11. [AddRef()] on a live object always returns and never calls the
    hook; the counter becomes the old value plus one modulo [2^32], with no
    overflow check: from [UINT_MAX] it becomes 0, the object stays alive and
    [IsUnique()] is false.  On an object whose counter reads 0, [AddRef()]
    followed by [DropRef()] runs the hook and ends the object. *)
Theorem AddRef_has_no_overflow_check `{cfg : BuildConfig} (s : State)
    (p : addr) (o : ReferenceCounted) :
  objs s !! p = Some o ->
  exists s1,
    AddRef p s = Ok tt s1 /\
    count_of s1 p = Some (wrap_unsigned (ref_count_ o + 1)) /\
    hook_runs p s1 = hook_runs p s /\
    total_reference_counted_objects s1 = total_reference_counted_objects s /\
    handles s1 = handles s /\
    (ref_count_ o = UINT_MODULUS - 1 ->
       count_of s1 p = Some 0 /\ IsUnique p s1 = Ok false s1) /\
    (ref_count_ o = 0 ->
       exists s2,
         DropRef p s1 = Ok tt s2 /\
         objs s2 !! p = None /\
         hook_runs p s2 = S (hook_runs p s)).
Proof.
  intros Ho. eexists. split; [apply (AddRef_live s p o Ho)|].
  unfold count_of. simpl. rewrite lookup_insert_eq. simpl.
  split; [reflexivity|].
  split.
  { unfold hook_runs. simpl. rewrite count_events_cons. reflexivity. }
  split; [reflexivity|]. split; [reflexivity|]. split.
  - intros E. rewrite E. split; [reflexivity|].
    unfold IsUnique. mrun. reflexivity.
  - intros E. rewrite E. eexists. split.
    { apply DropRef_live. simpl. apply lookup_insert_eq. }
    simpl. rewrite lookup_delete_eq. split; [reflexivity|].
    rewrite hook_runs_after_destroy. unfold hook_runs. simpl.
    rewrite count_events_cons. reflexivity.
Qed.

Lemma AddRef_has_no_overflow_check_witness :
  exists s1 s2,
    AddRef 5%positive st_zero_count = Ok tt s1 /\
    DropRef (cfg := debug_build) 5%positive s1 = Ok tt s2 /\
    objs s2 !! 5%positive = None.
Proof.
  destruct (AddRef_has_no_overflow_check (cfg := debug_build) st_zero_count
              5%positive (mkReferenceCounted 0))
    as (s1 & H1 & _ & _ & _ & _ & _ & H2); [reflexivity|].
  destruct H2 as (s2 & H3 & H4 & _); [reflexivity|].
  exists s1, s2. split; [exact H1|]. split; [exact H3|exact H4].
Defined.



(** X6. In every state a program can reach, constructing an object and
    dropping the creator's unit at once gives back the objects, the handles
    and the live-object counter; the hook has run once for that object. *)
Theorem new_then_DropRef_restores `{cfg : BuildConfig} (s : State) (p : addr) :
  reachable s ->
  objs s !! p = None ->
  (ReferenceCounted_ctor p ;; DropRef p) s =
    Ok tt (log (EvDestroy p) (log (EvDropRef p 1) s)).
Proof.
  intros [cs Hcs] Hp.
  assert (Hc : counter_ok s).
  { apply (counter_ok_run cs initial_state tt s); [reflexivity|exact Hcs]. }
  rewrite (bind_Ok _ _ s tt _ (ctor_live s p Hp)).
  rewrite (DropRef_live _ p (mkReferenceCounted 1))
    by (simpl; apply lookup_insert_eq).
  simpl. f_equal. apply State_eq; simpl; try reflexivity.
  - rewrite delete_insert_eq. apply delete_id, Hp.
  - unfold counter_ok in Hc. rewrite Hc. unfold wrap_size_t.
    rewrite Zminus_mod_idemp_l.
    replace (Z.of_nat (size (objs s)) mod SIZE_MODULUS + 1 - 1)
      with (Z.of_nat (size (objs s)) mod SIZE_MODULUS) by lia.
    apply Zmod_mod.
Qed.

Lemma new_then_DropRef_restores_witness :
  (ReferenceCounted_ctor 6%positive ;; DropRef (cfg := debug_build) 6%positive)
    st_adopted =
  Ok tt (log (EvDestroy 6%positive) (log (EvDropRef 6%positive 1) st_adopted)).
Proof.
  apply (new_then_DropRef_restores (cfg := debug_build) st_adopted 6%positive).
  - exists [New 5%positive; CallTakeRef 0%nat (Some 5%positive)]. reflexivity.
  - reflexivity.
Defined.

(** ** Counting the handles of an object *)

Lemma holds_le_1 p x : (holds p x <= 1)%nat.
Proof. unfold holds. destruct (decide _); lia. Qed.

Lemma holds_None p : holds p (mkRCReference None) = 0%nat.
Proof. reflexivity. Qed.

Lemma holds_same p : holds p (mkRCReference (Some p)) = 1%nat.
Proof. unfold holds. simpl. destruct (decide _); [reflexivity|congruence]. Qed.

Lemma holds_other p q : p <> q -> holds p (mkRCReference (Some q)) = 0%nat.
Proof.
  intros H. unfold holds. simpl. destruct (decide _); [congruence|reflexivity].
Qed.

Lemma holders_in_empty p : holders_in ∅ p = 0%nat.
Proof. unfold holders_in. rewrite map_to_list_empty. reflexivity. Qed.

Lemma holders_in_insert_fresh (m : gmap nat RCReference) h x p :
  m !! h = None ->
  holders_in (<[h := x]> m) p = (holds p x + holders_in m p)%nat.
Proof.
  intros H. unfold holders_in. rewrite (map_to_list_insert m h x H).
  reflexivity.
Qed.

Lemma holders_in_delete (m : gmap nat RCReference) h x p :
  m !! h = Some x ->
  holders_in m p = (holds p x + holders_in (delete h m) p)%nat.
Proof.
  intros H. unfold holders_in. rewrite <- (map_to_list_delete m h x H).
  reflexivity.
Qed.

Lemma holders_in_insert (m : gmap nat RCReference) h w x p :
  m !! h = Some w ->
  (holders_in (<[h := x]> m) p + holds p w = holders_in m p + holds p x)%nat.
Proof.
  intros H. rewrite <- (insert_delete_eq m).
  rewrite holders_in_insert_fresh by apply lookup_delete_eq.
  rewrite (holders_in_delete m h w p H). lia.
Qed.

Lemma holders_in_le_size (m : gmap nat RCReference) p :
  (holders_in m p <= size m)%nat.
Proof.
  unfold holders_in. rewrite <- length_map_to_list.
  induction (map_to_list m) as [|kx l IH]; simpl; [lia|].
  pose proof (holds_le_1 p kx.2). lia.
Qed.

Lemma holders_in_pos (m : gmap nat RCReference) p :
  (0 < holders_in m p)%nat ->
  exists h, m !! h = Some (mkRCReference (Some p)).
Proof.
  unfold holders_in. intros H.
  assert (E : exists kx, kx ∈ map_to_list m /\ holds p kx.2 = 1%nat).
  { induction (map_to_list m) as [|kx l IH]; simpl in H; [lia|].
    destruct (holds p kx.2) eqn:Hk.
    - destruct IH as (ky & Hin & Hy); [lia|].
      exists ky. split; [right; exact Hin|exact Hy].
    - exists kx. split; [left|].
      pose proof (holds_le_1 p kx.2). lia. }
  destruct E as ([h x] & Hin & Hx).
  apply elem_of_map_to_list in Hin. exists h. rewrite Hin.
  unfold holds in Hx. simpl in Hx. destruct (decide _) as [E|]; [|discriminate].
  rewrite <- E. rewrite eta_RCReference. reflexivity.
Qed.

Lemma holders_in_lookup (m : gmap nat RCReference) h p :
  m !! h = Some (mkRCReference (Some p)) -> (0 < holders_in m p)%nat.
Proof.
  intros H. rewrite (holders_in_delete m h _ p H), holds_same. lia.
Qed.

(** ** Objects owned through handles only *)

Section OwnerInvariant.

Context {cfg : BuildConfig}.

Lemma handle_invariant_live s h q :
  handle_invariant s ->
  handles s !! h = Some (mkRCReference (Some q)) ->
  exists o, objs s !! q = Some o /\
            ref_count_ o = Z.of_nat (holders s q) /\ (0 < holders s q)%nat.
Proof.
  intros [Ha Hb] Hh.
  pose proof (holders_in_lookup _ _ _ Hh) as Hpos.
  destruct (objs s !! q) as [o|] eqn:Hq.
  - exists o. split; [reflexivity|]. apply (Ha q o Hq).
  - specialize (Hb q Hq). unfold holders in Hb. lia.
Qed.

Lemma invariant_after_drop s d s' :
  handle_invariant s ->
  Z.of_nat (size (handles s)) < UINT_MODULUS ->
  (forall p, (holders s' p + holds p (mkRCReference d) = holders s p)%nat) ->
  match d with
  | Some q => exists s1, DropRef q s = Ok tt s1 /\ objs s' = objs s1
  | None => objs s' = objs s
  end ->
  handle_invariant s'.
Proof.
  intros [Ha Hb] Hbound Hcount Hd.
  destruct d as [q|].
  - destruct Hd as (s1 & HD & Hobjs).
    pose proof (Hcount q) as Hq. rewrite holds_same in Hq.
    destruct (objs s !! q) as [o|] eqn:Ho;
      [|specialize (Hb q Ho); lia].
    destruct (Ha q o Ho) as [Hn _].
    pose proof (holders_in_le_size (handles s) q) as Hle.
    fold (holders s q) in Hle.
    rewrite (DropRef_live s q o Ho) in HD. injection HD as <-.
    assert (Hother : forall p, p <> q -> holders s' p = holders s p).
    { intros p Hp. specialize (Hcount p).
      rewrite holds_other in Hcount by exact Hp. lia. }
    destruct (Z.eqb_spec (ref_count_ o) 1) as [E|E]; simpl in Hobjs.
    + split.
      * intros p o' Hp. rewrite Hobjs in Hp.
        destruct (decide (p = q)) as [->|Hne].
        { rewrite lookup_delete_eq in Hp. discriminate. }
        rewrite lookup_delete_ne in Hp by congruence.
        rewrite (Hother p Hne). apply (Ha p o' Hp).
      * intros p Hp. rewrite Hobjs in Hp.
        destruct (decide (p = q)) as [->|Hne]; [lia|].
        rewrite lookup_delete_ne in Hp by congruence.
        rewrite (Hother p Hne). apply (Hb p Hp).
    + split.
      * intros p o' Hp. rewrite Hobjs in Hp.
        destruct (decide (p = q)) as [->|Hne].
        { rewrite lookup_insert_eq in Hp. injection Hp as <-. simpl.
          rewrite wrap_unsigned_small by (unfold UINT_MODULUS in *; lia).
          split; lia. }
        rewrite lookup_insert_ne in Hp by congruence.
        rewrite (Hother p Hne). apply (Ha p o' Hp).
      * intros p Hp. rewrite Hobjs in Hp.
        destruct (decide (p = q)) as [->|Hne].
        { rewrite lookup_insert_eq in Hp. discriminate. }
        rewrite lookup_insert_ne in Hp by congruence.
        rewrite (Hother p Hne). apply (Hb p Hp).
  - assert (Hsame : forall p, holders s' p = holders s p).
    { intros p. specialize (Hcount p). rewrite holds_None in Hcount. lia. }
    split.
    + intros p o Hp. rewrite Hd in Hp. rewrite Hsame. apply (Ha p o Hp).
    + intros p Hp. rewrite Hd in Hp. rewrite Hsame. apply (Hb p Hp).
Qed.

Lemma invariant_after_make s p r s' :
  handle_invariant s ->
  objs s !! p = None ->
  handles s !! r = None ->
  objs s' = <[p := mkReferenceCounted 1]> (objs s) ->
  handles s' = <[r := mkRCReference (Some p)]> (handles s) ->
  handle_invariant s'.
Proof.
  intros [Ha Hb] Hp Hr Ho Hh.
  assert (Hc : forall q, holders s' q =
                 (holds q (mkRCReference (Some p)) + holders s q)%nat).
  { intros q. unfold holders. rewrite Hh.
    apply holders_in_insert_fresh, Hr. }
  split.
  - intros q o Hq. rewrite Ho in Hq. rewrite Hc.
    destruct (decide (q = p)) as [->|Hne].
    + rewrite lookup_insert_eq in Hq. injection Hq as <-.
      rewrite holds_same, (Hb p Hp). simpl. split; lia.
    + rewrite lookup_insert_ne in Hq by congruence.
      rewrite holds_other by exact Hne. apply (Ha q o Hq).
  - intros q Hq. rewrite Ho in Hq. rewrite Hc.
    destruct (decide (q = p)) as [->|Hne].
    + rewrite lookup_insert_eq in Hq. discriminate.
    + rewrite lookup_insert_ne in Hq by congruence.
      rewrite holds_other by exact Hne. apply (Hb q Hq).
Qed.

Lemma invariant_after_add s p o r s' :
  handle_invariant s ->
  objs s !! p = Some o ->
  handles s !! r = None ->
  objs s' = <[p := mkReferenceCounted (wrap_unsigned (ref_count_ o + 1))]> (objs s) ->
  handles s' = <[r := mkRCReference (Some p)]> (handles s) ->
  Z.of_nat (size (handles s')) < UINT_MODULUS ->
  handle_invariant s'.
Proof.
  intros [Ha Hb] Hp Hr Ho Hh Hbound.
  assert (Hc : forall q, holders s' q =
                 (holds q (mkRCReference (Some p)) + holders s q)%nat).
  { intros q. unfold holders. rewrite Hh.
    apply holders_in_insert_fresh, Hr. }
  pose proof (holders_in_le_size (handles s') p) as Hle.
  fold (holders s' p) in Hle. rewrite Hc, holds_same in Hle.
  split.
  - intros q o' Hq. rewrite Ho in Hq. rewrite Hc.
    destruct (decide (q = p)) as [->|Hne].
    + rewrite lookup_insert_eq in Hq. injection Hq as <-.
      rewrite holds_same. simpl. destruct (Ha p o Hp) as [Hn Hpos].
      rewrite wrap_unsigned_small by (unfold UINT_MODULUS in *; lia).
      split; lia.
    + rewrite lookup_insert_ne in Hq by congruence.
      rewrite holds_other by exact Hne. apply (Ha q o' Hq).
  - intros q Hq. rewrite Ho in Hq. rewrite Hc.
    destruct (decide (q = p)) as [->|Hne].
    + rewrite lookup_insert_eq in Hq. discriminate.
    + rewrite lookup_insert_ne in Hq by congruence.
      rewrite holds_other by exact Hne. apply (Hb q Hq).
Qed.

Lemma invariant_same_counts s s' :
  handle_invariant s ->
  objs s' = objs s ->
  (forall p, holders s' p = holders s p) ->
  handle_invariant s'.
Proof.
  intros [Ha Hb] Ho Hc. split.
  - intros p o Hp. rewrite Ho in Hp. rewrite Hc. apply (Ha p o Hp).
  - intros p Hp. rewrite Ho in Hp. rewrite Hc. apply (Hb p Hp).
Qed.

Lemma preserves_get_pointer (P : State -> Prop) h : preserves P (get_pointer h).
Proof.
  intros s a s' HP. unfold get_pointer.
  destruct (handles s !! h); intros [=]; subst; exact HP.
Qed.

Lemma preserves_ref_count_load (P : State -> Prop) p :
  preserves P (ref_count_load p).
Proof.
  intros s a s' HP. unfold ref_count_load.
  destruct (objs s !! p); intros [=]; subst; exact HP.
Qed.

Lemma preserves_GetNum (P : State -> Prop) :
  preserves P GetNumReferenceCountedObjects.
Proof. intros s a s' HP [= _ <-]. exact HP. Qed.

#[local] Hint Resolve preserves_get_pointer preserves_ref_count_load
  preserves_GetNum : preserves.

Lemma counts_after_reset (m : gmap nat RCReference) h d v p :
  m !! h = Some (mkRCReference d) ->
  (holders_in (<[h := mkRCReference v]> m) p + holds p (mkRCReference d) =
   holders_in m p + holds p (mkRCReference v))%nat.
Proof. apply holders_in_insert. Qed.

Lemma counts_after_delete (m : gmap nat RCReference) h d p :
  m !! h = Some (mkRCReference d) ->
  (holders_in (delete h m) p + holds p (mkRCReference d) = holders_in m p)%nat.
Proof. intros H. rewrite (holders_in_delete m h _ p H). lia. Qed.

Lemma counts_after_assign (m : gmap nat RCReference) h other d v p :
  m !! h = Some (mkRCReference d) ->
  m !! other = Some (mkRCReference v) ->
  (holders_in (<[other := mkRCReference None]> (<[h := mkRCReference v]> m)) p +
   holds p (mkRCReference d) = holders_in m p)%nat.
Proof.
  intros Hh Ho. destruct (decide (h = other)) as [->|Hne].
  - rewrite insert_insert_eq.
    pose proof (holders_in_insert m other _ (mkRCReference None) p Hh) as E.
    rewrite holds_None in E. lia.
  - pose proof (holders_in_insert m h _ (mkRCReference v) p Hh) as E1.
    pose proof (holders_in_insert (<[h := mkRCReference v]> m) other
                  (mkRCReference v) (mkRCReference None) p) as E2.
    rewrite lookup_insert_ne in E2 by congruence. specialize (E2 Ho).
    rewrite holds_None in E2. lia.
Qed.

Lemma counts_after_swap (m : gmap nat RCReference) a b x y p :
  m !! a = Some x ->
  m !! b = Some y ->
  holders_in (<[b := mkRCReference (pointer_ x)]>
                (<[a := mkRCReference (pointer_ y)]> m)) p = holders_in m p.
Proof.
  intros Ha Hb. rewrite !eta_RCReference.
  destruct (decide (a = b)) as [->|Hne].
  - rewrite insert_insert_eq. assert (x = y) by congruence. subst y.
    rewrite insert_id by exact Hb. reflexivity.
  - pose proof (holders_in_insert m a x y p Ha) as E1.
    pose proof (holders_in_insert (<[a := y]> m) b y x p) as E2.
    rewrite lookup_insert_ne in E2 by congruence. specialize (E2 Hb). lia.
Qed.

Lemma operator_assign_Ok s h other s' :
  operator_assign h other s = Ok tt s' ->
  exists d v,
    handles s !! h = Some (mkRCReference d) /\
    handles s !! other = Some (mkRCReference v) /\
    handles s' =
      <[other := mkRCReference None]> (<[h := mkRCReference v]> (handles s)) /\
    dropped d s s'.
Proof.
  unfold operator_assign. mrun.
  destruct (handles s !! h) as [[d]|] eqn:Hh; [|discriminate]. mrun.
  destruct d as [q|]; mrun.
  - destruct (DropRef_cases s q) as [(s1 & HD & Hs1)|HD]; rewrite HD;
      [|discriminate].
    rewrite Hs1.
    destruct (handles s !! other) as [[v]|] eqn:Ho; [|discriminate]. mrun.
    rewrite Hs1, Hh. mrun.
    destruct (decide (h = other)) as [->|Hne].
    + rewrite lookup_insert_eq. intros [= <-].
      exists (Some q), v. simpl. rewrite Hs1. repeat split.
      exists s1. split; [exact HD|reflexivity].
    + rewrite lookup_insert_ne by congruence. rewrite Hs1, Ho.
      intros [= <-]. exists (Some q), v. simpl. rewrite Hs1. repeat split.
      exists s1. split; [exact HD|reflexivity].
  - destruct (handles s !! other) as [[v]|] eqn:Ho; [|discriminate]. mrun.
    rewrite Hh. mrun.
    destruct (decide (h = other)) as [->|Hne].
    + rewrite lookup_insert_eq. intros [= <-].
      exists None, v. repeat split.
    + rewrite lookup_insert_ne by congruence. rewrite Ho.
      intros [= <-]. exists None, v. repeat split.
Qed.

Lemma RCReference_dtor_Ok s h s' :
  RCReference_dtor h s = Ok tt s' ->
  exists d,
    handles s !! h = Some (mkRCReference d) /\
    handles s' = delete h (handles s) /\
    dropped d s s'.
Proof.
  unfold RCReference_dtor. mrun.
  destruct (handles s !! h) as [[d]|] eqn:Hh; [|discriminate]. mrun.
  destruct d as [q|]; mrun.
  - destruct (DropRef_cases s q) as [(s1 & HD & Hs1)|HD]; rewrite HD;
      [|discriminate].
    intros [= <-]. exists (Some q). simpl. rewrite Hs1. repeat split.
    exists s1. split; [exact HD|reflexivity].
  - intros [= <-]. exists None. repeat split.
Qed.

Lemma reset_Ok s h v s' :
  reset h v s = Ok tt s' ->
  exists d,
    handles s !! h = Some (mkRCReference d) /\
    handles s' = <[h := mkRCReference v]> (handles s) /\
    dropped d s s'.
Proof.
  unfold reset. mrun.
  destruct (handles s !! h) as [[d]|] eqn:Hh; [|discriminate]. mrun.
  destruct d as [q|]; mrun.
  - destruct (DropRef_cases s q) as [(s1 & HD & Hs1)|HD]; rewrite HD;
      [|discriminate].
    rewrite Hs1, Hh. intros [= <-]. exists (Some q). simpl. rewrite Hs1.
    repeat split. exists s1. split; [exact HD|reflexivity].
  - rewrite Hh. intros [= <-]. exists None. repeat split.
Qed.

Lemma handle_invariant_step s c s' :
  handle_invariant s ->
  Z.of_nat (size (handles s)) < UINT_MODULUS ->
  exec_owner c s = Ok tt s' ->
  Z.of_nat (size (handles s')) < UINT_MODULUS ->
  handle_invariant s'.
Proof.
  intros HI Hbound Hex Hbound'. revert Hbound' Hex.
  destruct c as [r p|r|h r|r h|r h|h other|h|h|h other|h other|h|h|h|h|];
    unfold exec_owner.
  - (* OMake *)
    unfold ReferenceCounted_ctor, TakeRef, RCReference_ctor. mrun.
    destruct (objs s !! p) as [o|] eqn:Hp; [discriminate|].
    mrun.
    destruct (handles s !! r) as [x|] eqn:Hr; [discriminate|].
    mrun. intros Hb' [= <-].
    apply (invariant_after_make s p r); auto.
    simpl. apply insert_insert_eq.
  - (* OEmpty *)
    unfold RCReference_ctor. mrun.
    destruct (handles s !! r) as [x|] eqn:Hr; [discriminate|].
    intros Hb' [= <-].
    apply (invariant_same_counts s); [exact HI|reflexivity|].
    intros p. unfold holders. simpl.
    rewrite holders_in_insert_fresh by exact Hr. reflexivity.
  - (* OCopy *)
    unfold CopyRef, get, FormRef, RCReference_ctor, AddRef. mrun.
    destruct (handles s !! h) as [[[p|]]|] eqn:Hh; [| |discriminate]; mrun.
    + rewrite Hh. mrun.
      destruct (handles s !! r) as [x|] eqn:Hr; [discriminate|]. mrun.
      destruct (handle_invariant_live s h p HI Hh) as (o & Ho & _).
      rewrite Ho. mrun. intros Hb' [= <-].
      apply (invariant_after_add s p o r); auto.
      simpl. apply insert_insert_eq.
    + destruct (handles s !! r) as [x|] eqn:Hr; [discriminate|].
      intros Hb' [= <-].
      apply (invariant_same_counts s); [exact HI|reflexivity|].
      intros p. unfold holders. simpl.
      rewrite holders_in_insert_fresh by exact Hr. reflexivity.
  - (* OMove *)
    unfold RCReference_move_ctor. mrun.
    destruct (handles s !! h) as [[v]|] eqn:Hh; [|discriminate]. mrun.
    destruct (handles s !! r) as [x|] eqn:Hr; [discriminate|]. mrun.
    assert (Hne : r <> h) by congruence.
    rewrite lookup_insert_ne by congruence. rewrite Hh.
    intros Hb' [= <-].
    apply (invariant_same_counts s); [exact HI|reflexivity|].
    intros p. unfold holders. simpl.
    pose proof (holders_in_insert (<[r := mkRCReference v]> (handles s)) h
                  (mkRCReference v) (mkRCReference None) p) as E.
    rewrite lookup_insert_ne in E by congruence. specialize (E Hh).
    rewrite (holders_in_insert_fresh (handles s) r _ p Hr) in E.
    rewrite holds_None in E. lia.
  - (* OUpcast *)
    unfold RCReference_converting_ctor. mrun.
    destruct (handles s !! h) as [[v]|] eqn:Hh; [|discriminate]. mrun.
    destruct (handles s !! r) as [x|] eqn:Hr; [discriminate|]. mrun.
    assert (Hne : r <> h) by congruence.
    rewrite lookup_insert_ne by congruence. rewrite Hh.
    intros Hb' [= <-].
    apply (invariant_same_counts s); [exact HI|reflexivity|].
    intros p. unfold holders. simpl.
    pose proof (holders_in_insert (<[r := mkRCReference v]> (handles s)) h
                  (mkRCReference v) (mkRCReference None) p) as E.
    rewrite lookup_insert_ne in E by congruence. specialize (E Hh).
    rewrite (holders_in_insert_fresh (handles s) r _ p Hr) in E.
    rewrite holds_None in E. lia.
  - (* OAssign *)
    intros _ Hex. apply operator_assign_Ok in Hex as (d & v & Hh & Ho & Hs' & Hd).
    apply (invariant_after_drop s d); try assumption.
    intros p. unfold holders. rewrite Hs'.
    apply counts_after_assign; assumption.
  - (* ODestroy *)
    intros _ Hex. apply RCReference_dtor_Ok in Hex as (d & Hh & Hs' & Hd).
    apply (invariant_after_drop s d); try assumption.
    intros p. unfold holders. rewrite Hs'.
    apply counts_after_delete; assumption.
  - (* OReset *)
    intros _ Hex. apply reset_Ok in Hex as (d & Hh & Hs' & Hd).
    apply (invariant_after_drop s d); try assumption.
    intros p. unfold holders. rewrite Hs'.
    rewrite (counts_after_reset _ h d None p Hh), holds_None. lia.
  - (* OSwap *)
    unfold free_swap, swap. mrun.
    destruct (handles s !! h) as [x|] eqn:Hh; [|discriminate]. mrun.
    destruct (handles s !! other) as [y|] eqn:Ho; [|discriminate]. mrun.
    rewrite Hh. mrun.
    assert (E : is_Some (<[h := mkRCReference (pointer_ y)]> (handles s) !! other)).
    { apply lookup_insert_is_Some'. right. eauto. }
    destruct E as [z ->]. intros _ [= <-].
    apply (invariant_same_counts s); [exact HI|reflexivity|].
    intros p. unfold holders. simpl. apply counts_after_swap; assumption.
  - (* OTransfer *)
    intros _ Hex.
    destruct (decide (h = other)) as [->|Hne].
    + destruct (handles s !! other) as [x|] eqn:Ho.
      * destruct (reset_release_cases s other other) as [_ E].
        rewrite E in Hex by eauto. injection Hex as <-. exact HI.
      * revert Hex. unfold release. mrun. rewrite Ho. discriminate.
    + destruct (reset_release_cases s h other) as [E _].
      rewrite (E Hne) in Hex.
      apply operator_assign_Ok in Hex as (d & v & Hh & Ho & Hs' & Hd).
      apply (invariant_after_drop s d); try assumption.
      intros p. unfold holders. rewrite Hs'.
      apply counts_after_assign; assumption.
  - intros _ Hex.
    assert (P : preserves handle_invariant (get h ;; ret tt))
      by (unfold get; preserves_steps).
    exact (P s tt s' HI Hex).
  - intros _ Hex.
    assert (P : preserves handle_invariant (operator_bool h ;; ret tt))
      by (unfold operator_bool; preserves_steps).
    exact (P s tt s' HI Hex).
  - intros _ Hex.
    assert (P : preserves handle_invariant (operator_star h ;; ret tt))
      by (unfold operator_star; preserves_steps).
    exact (P s tt s' HI Hex).
  - intros _ Hex.
    assert (P : preserves handle_invariant
                  ((p <- operator_arrow h ;; arrow p IsUnique) ;; ret tt))
      by (unfold operator_arrow, IsUnique; preserves_steps).
    exact (P s tt s' HI Hex).
  - intros _ Hex.
    assert (P : preserves handle_invariant
                  (GetNumReferenceCountedObjects ;; ret tt))
      by preserves_steps.
    exact (P s tt s' HI Hex).
Qed.

End OwnerInvariant.

Lemma handle_invariant_initial : handle_invariant initial_state.
Proof.
  split.
  - intros p o Hp. simpl in Hp. rewrite lookup_empty in Hp. discriminate.
  - intros p _. apply holders_in_empty.
Qed.

Lemma owner_reachable_invariant `{cfg : BuildConfig} s :
  owner_reachable s ->
  handle_invariant s /\ Z.of_nat (size (handles s)) < UINT_MODULUS.
Proof.
  induction 1 as [|s c s' _ [IH Hb] Hex Hb'].
  - split; [apply handle_invariant_initial|]. unfold UINT_MODULUS. simpl.
    rewrite map_size_empty. lia.
  - split; [|exact Hb']. exact (handle_invariant_step s c s' IH Hb Hex Hb').
Qed.

Section OwnerCounter.

Context {cfg : BuildConfig}.

#[local] Hint Resolve counter_ok_get_pointer counter_ok_set_pointer
  counter_ok_init_pointer counter_ok_set_handles counter_ok_log
  counter_ok_load counter_ok_fetch_add counter_ok_fetch_sub
  counter_ok_get_num counter_ok_ctor counter_ok_dtor : preserves.

Lemma counter_ok_exec_owner c : preserves counter_ok (exec_owner c).
Proof.
  destruct c; unfold exec_owner, TakeRef, CopyRef, FormRef, get,
    RCReference_ctor, RCReference_move_ctor, RCReference_converting_ctor,
    operator_assign, RCReference_dtor, reset, release, free_swap, swap,
    operator_bool, operator_star, operator_arrow, IsUnique, delete_;
    preserves_steps; unfold delete_; auto with preserves.
Qed.

End OwnerCounter.

Lemma owner_reachable_counter_ok `{cfg : BuildConfig} s :
  owner_reachable s -> counter_ok s.
Proof.
  induction 1 as [|s c s' _ IH Hex _]; [reflexivity|].
  exact (counter_ok_exec_owner c s tt s' IH Hex).
Qed.

(** X7. In a program that owns its objects through handles only, and keeps
    fewer than [2^32] handles alive, the counter of every live object is
    the number of handles that hold it, and that number is not zero; and a
    handle never holds an object that is gone. *)
Theorem handles_count_their_objects `{cfg : BuildConfig} (s : State) :
  owner_reachable s ->
  (forall p o, objs s !! p = Some o ->
     ref_count_ o = Z.of_nat (holders s p) /\ (0 < holders s p)%nat) /\
  (forall h p, pointer_of s h = Some (Some p) ->
     exists o, objs s !! p = Some o).
Proof.
  intros Hr. destruct (owner_reachable_invariant s Hr) as [HI _].
  split; [exact (proj1 HI)|].
  intros h p Hh. apply pointer_of_Some in Hh.
  destruct (handle_invariant_live s h p HI Hh) as (o & Ho & _). eauto.
Qed.

Lemma handles_count_their_objects_witness :
  ref_count_ (mkReferenceCounted 2) =
    Z.of_nat (holders st_two_handles 5%positive) /\
  (0 < holders st_two_handles 5%positive)%nat.
Proof.
  destruct (handles_count_their_objects (cfg := debug_build) st_two_handles)
    as [H _].
  - apply (owner_step (mkState {[5%positive := mkReferenceCounted 1]} 1
                         {[0%nat := mkRCReference (Some 5%positive)]} [])
             (OCopy 0%nat 1%nat)).
    + apply (owner_step initial_state (OMake 0%nat 5%positive));
        [apply owner_start|reflexivity|vm_compute; reflexivity].
    + vm_compute. reflexivity.
    + vm_compute. reflexivity.
  - apply (H 5%positive (mkReferenceCounted 2)). reflexivity.
Defined.

(** X9. In such a program every live object is held by some live handle.
    So when no handle holds anything, no object is alive and
    [GetNumReferenceCountedObjects()] returns 0. *)
Theorem live_objects_are_held `{cfg : BuildConfig} (s : State) :
  owner_reachable s ->
  (forall p o, objs s !! p = Some o ->
     exists h, pointer_of s h = Some (Some p)) /\
  ((forall h p, pointer_of s h <> Some (Some p)) ->
     objs s = ∅ /\ GetNumReferenceCountedObjects s = Ok 0 s).
Proof.
  intros Hr. destruct (owner_reachable_invariant s Hr) as [[Ha Hb] _].
  assert (Hheld : forall p o, objs s !! p = Some o ->
                    exists h, pointer_of s h = Some (Some p)).
  { intros p o Hp. destruct (Ha p o Hp) as [_ Hpos].
    destruct (holders_in_pos _ _ Hpos) as [h Hh].
    exists h. apply pointer_of_Some. exact Hh. }
  split; [exact Hheld|].
  intros Hnone.
  assert (He : objs s = ∅).
  { apply map_eq. intros p. rewrite lookup_empty.
    destruct (objs s !! p) as [o|] eqn:Hp; [|reflexivity].
    destruct (Hheld p o Hp) as [h Hh]. destruct (Hnone h p Hh). }
  split; [exact He|].
  pose proof (owner_reachable_counter_ok s Hr) as Hc.
  unfold counter_ok in Hc. rewrite He, map_size_empty in Hc.
  unfold GetNumReferenceCountedObjects. rewrite Hc. reflexivity.
Qed.

Lemma live_objects_are_held_witness :
  exists h, pointer_of st_adopted h = Some (Some 5%positive).
Proof.
  destruct (live_objects_are_held (cfg := debug_build) st_adopted)
    as [H _].
  - apply (owner_step initial_state (OMake 0%nat 5%positive));
      [apply owner_start|reflexivity|vm_compute; reflexivity].
  - apply (H 5%positive (mkReferenceCounted 1)). reflexivity.
Defined.

(** X15. In such a program [h->IsUnique()] on a non-empty handle returns,
    changes nothing, and is true exactly when [h] is the only handle that
    holds the object. *)
Theorem IsUnique_means_sole_handle `{cfg : BuildConfig} (s : State)
    (h : hloc) (p : addr) :
  owner_reachable s ->
  pointer_of s h = Some (Some p) ->
  (q <- operator_arrow h ;; arrow q IsUnique) s =
    Ok (bool_decide (holders s p = 1%nat)) s.
Proof.
  intros Hr Hh. destruct (owner_reachable_invariant s Hr) as [HI _].
  apply pointer_of_Some in Hh.
  destruct (handle_invariant_live s h p HI Hh) as (o & Ho & Hn & _).
  unfold operator_arrow, IsUnique, assert_.
  destruct NDEBUG; mrun using (rewrite ?Hh, ?Ho); rewrite Hn;
    f_equal;
    (destruct (Z.eqb_spec (Z.of_nat (holders s p)) 1) as [E|E];
     [rewrite bool_decide_eq_true_2 by lia|
      rewrite bool_decide_eq_false_2 by lia]; reflexivity).
Qed.

Lemma IsUnique_means_sole_handle_witness :
  (q <- operator_arrow (cfg := debug_build) 0%nat ;; arrow q IsUnique)
    st_adopted =
  Ok (bool_decide (holders st_adopted 5%positive = 1%nat)) st_adopted.
Proof.
  apply (IsUnique_means_sole_handle (cfg := debug_build) st_adopted 0%nat
           5%positive); [|reflexivity].
  apply (owner_step initial_state (OMake 0%nat 5%positive));
    [apply owner_start|reflexivity|vm_compute; reflexivity].
Defined.

(** X8. A statement of such a program whose arguments make sense (live
    handles, fresh storage, [*h] and [h->] on non-empty handles) and which
    does not drop the last unit of an object returns normally, in both
    builds: no dangling pointer is followed and no assertion fails. *)
Theorem handle_programs_are_defined `{cfg : BuildConfig} (s : State)
    (c : owner_command) :
  owner_reachable s ->
  well_formed s c ->
  spares_objects s c ->
  exists s', exec_owner c s = Ok tt s'.
Proof.
  intros Hr Hwf _. destruct (owner_reachable_invariant s Hr) as [HI _].
  assert (Hdrop : forall h q, handles s !! h = Some (mkRCReference (Some q)) ->
                    exists s1, DropRef q s = Ok tt s1 /\ handles s1 = handles s).
  { intros h q Hh.
    destruct (handle_invariant_live s h q HI Hh) as (o & Ho & _).
    destruct (DropRef_cases s q) as [E|E]; [exact E|].
    rewrite (DropRef_live s q o Ho) in E. discriminate. }
  destruct c as [r p|r|h r|r h|r h|h other|h|h|h other|h other|h|h|h|h|];
    simpl in Hwf; unfold exec_owner.
  - destruct Hwf as [Hh Hp]. eexists.
    unfold ReferenceCounted_ctor, TakeRef, RCReference_ctor.
    mrun using (rewrite ?Hh, ?Hp). reflexivity.
  - eexists. unfold RCReference_ctor. mrun using (rewrite ?Hwf). reflexivity.
  - destruct Hwf as [[[[p|]] Hh] Hr0].
    + destruct (handle_invariant_live s h p HI Hh) as (o & Ho & _).
      eexists. unfold CopyRef, get, FormRef, RCReference_ctor, AddRef.
      mrun using (rewrite ?Hh, ?Hr0, ?Ho). reflexivity.
    + eexists. unfold CopyRef, RCReference_ctor.
      mrun using (rewrite ?Hh, ?Hr0). reflexivity.
  - destruct Hwf as [[x Hh] Hr0]. assert (r <> h) by congruence.
    eexists. unfold RCReference_move_ctor.
    mrun using (rewrite ?Hh, ?Hr0, ?lookup_insert_ne by congruence).
    reflexivity.
  - destruct Hwf as [[x Hh] Hr0]. assert (r <> h) by congruence.
    eexists. unfold RCReference_converting_ctor.
    mrun using (rewrite ?Hh, ?Hr0, ?lookup_insert_ne by congruence).
    reflexivity.
  - destruct Hwf as [[[[q|]] Hh] [[v] Ho]].
    + destruct (handle_invariant_live s h q HI Hh) as (o & Hq & _).
      destruct (operator_assign_holding s h other q o v) as (_ & _ & E);
        [apply pointer_of_Some, Hh|exact Hq|apply pointer_of_Some, Ho|].
      eexists. exact E.
    + unfold operator_assign.
      destruct (decide (h = other)) as [->|Hne]; eexists;
        mrun using (rewrite ?Hh, ?Ho, ?lookup_insert_ne by congruence);
        reflexivity.
  - destruct Hwf as [[[q|]] Hh].
    + destruct (Hdrop h q Hh) as (s1 & HD & _).
      eexists. unfold RCReference_dtor. mrun using (rewrite ?Hh, ?HD).
      reflexivity.
    + eexists. unfold RCReference_dtor. mrun using (rewrite ?Hh).
      reflexivity.
  - destruct Hwf as [[[q|]] Hh].
    + destruct (Hdrop h q Hh) as (s1 & HD & Hs1).
      eexists. unfold reset. mrun using (rewrite ?Hh, ?HD, ?Hs1).
      reflexivity.
    + eexists. unfold reset. mrun using (rewrite ?Hh). reflexivity.
  - destruct Hwf as [[x Hh] [y Ho]].
    destruct (free_swap_defined s h other x y Hh Ho)
      as (s' & E). exists s'. exact E.
  - destruct Hwf as [[[d] Hh] [[v] Ho]].
    destruct (decide (h = other)) as [->|Hne].
    + destruct (reset_release_cases s other other) as [_ E].
      eexists. apply E; eauto.
    + destruct (reset_release_cases s h other) as [E _]. rewrite (E Hne).
      destruct d as [q|].
      * destruct (handle_invariant_live s h q HI Hh) as (o & Hq & _).
        destruct (operator_assign_holding s h other q o v) as (_ & _ & E');
          [apply pointer_of_Some, Hh|exact Hq|apply pointer_of_Some, Ho|].
        eexists. exact E'.
      * eexists. unfold operator_assign.
        mrun using (rewrite ?Hh, ?Ho, ?lookup_insert_ne by congruence).
        reflexivity.
  - destruct Hwf as [x Hh]. eexists. unfold get.
    mrun using (rewrite ?Hh). reflexivity.
  - destruct Hwf as [x Hh]. eexists. unfold operator_bool.
    mrun using (rewrite ?Hh). reflexivity.
  - destruct Hwf as [p Hh]. apply pointer_of_Some in Hh.
    destruct (handle_invariant_live s h p HI Hh) as (o & Ho & _).
    eexists. unfold operator_star, assert_.
    destruct NDEBUG; mrun using (rewrite ?Hh, ?Ho); reflexivity.
  - destruct Hwf as [p Hh]. apply pointer_of_Some in Hh.
    destruct (handle_invariant_live s h p HI Hh) as (o & Ho & _).
    eexists. unfold operator_arrow, IsUnique, assert_.
    destruct NDEBUG; mrun using (rewrite ?Hh, ?Ho); reflexivity.
  - eexists. reflexivity.
Qed.

Lemma handle_programs_are_defined_witness :
  exists s',
    exec_owner (cfg := debug_build) (ODestroy 0%nat) st_two_handles = Ok tt s'.
Proof.
  apply (handle_programs_are_defined (cfg := debug_build) st_two_handles
           (ODestroy 0%nat)).
  - apply (owner_step (mkState {[5%positive := mkReferenceCounted 1]} 1
                         {[0%nat := mkRCReference (Some 5%positive)]} [])
             (OCopy 0%nat 1%nat)).
    + apply (owner_step initial_state (OMake 0%nat 5%positive));
        [apply owner_start|reflexivity|vm_compute; reflexivity].
    + vm_compute. reflexivity.
    + vm_compute. reflexivity.
  - exists (mkRCReference (Some 5%positive)). reflexivity.
  - intros q [= <-]. vm_compute. discriminate.
Defined.

(** ** Threads: every call is paid for by a unit *)

Section Balance.

Context {cfg : BuildConfig}.
Variable obj : addr.

Lemma AddRef_trace s s' :
  AddRef obj s = Ok tt s' -> trace s' = EvAddRef obj :: trace s.
Proof.
  unfold AddRef. mrun. destruct (objs s !! obj); [|discriminate].
  intros [= <-]. reflexivity.
Qed.

Lemma DropRef_decrement_trace s old s' :
  DropRef_decrement obj s = Ok old s' ->
  trace s' = EvDropRef obj old :: trace s.
Proof.
  unfold DropRef_decrement. mrun. destruct (objs s !! obj); [|discriminate].
  intros [= <- <-]. reflexivity.
Qed.

Lemma Destroy_trace s s' :
  Destroy obj s = Ok tt s' -> trace s' = EvDestroy obj :: trace s.
Proof.
  unfold Destroy, delete_. unfold bind at 1. unfold modify at 1.
  intros H. apply dtor_Ok in H as [_ ->]. reflexivity.
Qed.

Lemma balance_step c c' :
  (drops obj (mem c) + total_units (pool c) = adds obj (mem c) + 1)%nat ->
  tstep obj c c' ->
  (drops obj (mem c') + total_units (pool c') = adds obj (mem c') + 1)%nat.
Proof.
  intros Hbal Hstep.
  destruct Hstep as [c t th k s' Ht Hfl Hu Hk Hlt Hadd
                    |c t th old s' Ht Hfl Hu Hdec
                    |c t th s' Ht Hfl Hd
                    |c t u th uh Hne Ht Hu' Hfl Hu
                    |c]; simpl.
  - pose proof (total_units_insert _ t th (mkThread (S (units th)) false) Ht)
      as HU.
    apply AddRef_trace in Hadd. unfold drops, adds in *. rewrite Hadd.
    rewrite !count_events_cons. simpl in *.
    rewrite bool_decide_eq_true_2 by reflexivity. lia.
  - pose proof (total_units_insert _ t th
                  (mkThread (pred (units th)) (old =? 1)) Ht) as HU.
    apply DropRef_decrement_trace in Hdec. unfold drops, adds in *.
    rewrite Hdec. rewrite !count_events_cons. simpl in *.
    rewrite bool_decide_eq_true_2 by reflexivity. lia.
  - pose proof (total_units_insert _ t th (mkThread (units th) false) Ht)
      as HU.
    apply Destroy_trace in Hd. unfold drops, adds in *. rewrite Hd.
    rewrite !count_events_cons. simpl in *. lia.
  - pose proof (total_units_insert _ t th (mkThread (pred (units th)) false) Ht)
      as HU1.
    assert (Hu2 : <[t := mkThread (pred (units th)) false]> (pool c) !! u = Some uh).
    { rewrite list_lookup_insert_ne by congruence. exact Hu'. }
    pose proof (total_units_insert _ u uh
                  (mkThread (S (units uh)) (in_DropRef uh)) Hu2) as HU2.
    simpl in *. lia.
  - unfold total_units in *. rewrite sum_list_with_app. simpl. lia.
Qed.

Lemma balance_executes c0 c :
  created_fresh obj c0 -> executes obj c0 c ->
  (drops obj (mem c) + total_units (pool c) = adds obj (mem c) + 1)%nat.
Proof.
  intros (Hc & Hd & Ha) Hex.
  assert (H0 : (drops obj (mem c0) + total_units (pool c0) =
                adds obj (mem c0) + 1)%nat).
  { destruct Hc as (s0 & _ & _ & _ & _ & Hpool). rewrite Hd, Ha, Hpool.
    reflexivity. }
  clear Hc Hd Ha.
  induction Hex as [c|c1 c2 c3 Hstep _ IH]; [exact H0|].
  apply IH. exact (balance_step c1 c2 H0 Hstep).
Qed.

End Balance.

(** X12. Take an object that has just been constructed and any interleaving
    of threads that keep the ownership contract.  At every point the number
    of [DropRef] calls on it plus the units still owned is the number of
    [AddRef] calls plus one, the creator's unit.  So when the hook has run,
    every [AddRef] has been answered by a [DropRef], with one more for the
    creator, and no unit is left. *)
Theorem calls_balance_units `{cfg : BuildConfig} (obj : addr) (c0 c : conf) :
  created_fresh obj c0 ->
  executes obj c0 c ->
  (drops obj (mem c) + total_units (pool c) = adds obj (mem c) + 1)%nat /\
  (hook_runs obj (mem c) = 1%nat ->
     drops obj (mem c) = S (adds obj (mem c)) /\
     total_units (pool c) = 0%nat).
Proof.
  intros Hc Hex.
  pose proof (balance_executes obj c0 c Hc Hex) as Hbal.
  split; [exact Hbal|].
  intros Hk.
  destruct (unit_invariant_executes obj c0 c (proj1 Hc) Hex)
    as (Hn & Hle & _ & H1).
  destruct H1 as [HU _]; [lia|]. split; [lia|exact HU].
Qed.

Lemma calls_balance_units_witness :
  drops 5%positive (mem conf_destroyed) = S (adds 5%positive (mem conf_destroyed)).
Proof.
  destruct (calls_balance_units (cfg := debug_build) 5%positive conf_created
              conf_destroyed) as [_ H].
  - split; [|split; reflexivity].
    exists initial_state. repeat split; reflexivity.
  - apply (rtc_l _ _ conf_decremented).
    { apply (step_DropRef_decrement 5%positive conf_created 0%nat
               (mkThread 1 false) 1); try reflexivity. simpl. lia. }
    apply (rtc_l _ _ conf_destroyed); [|apply rtc_refl].
    apply (step_DropRef_hook 5%positive conf_decremented 0%nat
             (mkThread 0 true)); reflexivity.
  - apply H. reflexivity.
Defined.

(** ** The last handle *)

(** X16. In a program that owns through handles only, destroying a
    non-empty handle always returns; it runs the hook and ends the object
    exactly when no other handle holds it, and otherwise leaves the object
    alive with one unit less. *)
Theorem last_handle_destroys_the_object `{cfg : BuildConfig} (s : State)
    (h : hloc) (p : addr) :
  owner_reachable s ->
  pointer_of s h = Some (Some p) ->
  exists s',
    RCReference_dtor h s = Ok tt s' /\
    handles s' = delete h (handles s) /\
    (holders s p = 1%nat ->
       objs s' !! p = None /\ hook_runs p s' = S (hook_runs p s)) /\
    (holders s p <> 1%nat ->
       count_of s' p = Some (Z.of_nat (holders s p) - 1) /\
       hook_runs p s' = hook_runs p s).
Proof.
  intros Hr Hh. destruct (owner_reachable_invariant s Hr) as [HI Hb].
  apply pointer_of_Some in Hh.
  destruct (handle_invariant_live s h p HI Hh) as (o & Ho & Hn & Hpos).
  pose proof (holders_in_le_size (handles s) p) as Hle.
  fold (holders s p) in Hle.
  pose proof (DropRef_live s p o Ho) as HD.
  eexists. split.
  { unfold RCReference_dtor. mrun using (rewrite ?Hh, ?HD). reflexivity. }
  rewrite Hn.
  destruct (Z.eqb_spec (Z.of_nat (holders s p)) 1) as [E|E]; simpl.
  - split; [reflexivity|]. split; [|intros; lia].
    intros _. rewrite lookup_delete_eq. split; [reflexivity|].
    change (hook_runs p (set_handles (delete h) (after_destroy p s)))
      with (hook_runs p (after_destroy p s)).
    apply hook_runs_after_destroy.
  - split; [reflexivity|]. split; [intros; lia|].
    intros _. unfold count_of. simpl. rewrite lookup_insert_eq. simpl.
    rewrite wrap_unsigned_small by (unfold UINT_MODULUS in *; lia).
    split; [reflexivity|].
    unfold hook_runs. simpl. rewrite count_events_cons. reflexivity.
Qed.

Lemma last_handle_destroys_the_object_witness :
  exists s',
    RCReference_dtor (cfg := debug_build) 0%nat st_adopted = Ok tt s' /\
    objs s' !! 5%positive = None.
Proof.
  destruct (last_handle_destroys_the_object (cfg := debug_build) st_adopted
              0%nat 5%positive) as (s' & H1 & _ & H2 & _).
  - apply (owner_step initial_state (OMake 0%nat 5%positive));
      [apply owner_start|reflexivity|vm_compute; reflexivity].
  - reflexivity.
  - exists s'. split; [exact H1|]. apply H2. reflexivity.
Defined.

(** X17. Adopting a pointer with [TakeRef] into fresh storage and
    destroying the handle is [DropRef] on the pointer: the same outcome and
    the same state, also when the pointer dangles. *)
Theorem TakeRef_then_destroy_is_DropRef `{cfg : BuildConfig} (s : State)
    (r : hloc) (p : addr) :
  handles s !! r = None ->
  (TakeRef r (Some p) ;; RCReference_dtor r) s = DropRef p s.
Proof.
  intros Hr. unfold TakeRef, RCReference_ctor, RCReference_dtor.
  mrun using (rewrite ?Hr).
  rewrite !DropRef_set_handles.
  destruct (DropRef_cases s p) as [(s1 & HD & Hs1)|HD]; rewrite HD;
    [|reflexivity].
  f_equal. apply State_eq; simpl; try reflexivity.
  rewrite !delete_insert_eq. rewrite Hs1. apply delete_id, Hr.
Qed.

Lemma TakeRef_then_destroy_is_DropRef_witness :
  (TakeRef 1%nat (Some 5%positive) ;;
   RCReference_dtor (cfg := debug_build) 1%nat) st_shared =
  DropRef (cfg := debug_build) 5%positive st_shared.
Proof.
  apply (TakeRef_then_destroy_is_DropRef (cfg := debug_build) st_shared 1%nat
           5%positive).
  reflexivity.
Defined.

(** ** Where an assertion can fail *)

Lemma never_aborts_ret {A} (a : A) : never_aborts (ret a).
Proof. intros s. discriminate. Qed.

Lemma never_aborts_undefined {A} : never_aborts (@undefined A).
Proof. intros s. discriminate. Qed.

Lemma never_aborts_modify f : never_aborts (modify f).
Proof. intros s. discriminate. Qed.

Lemma never_aborts_bind {A B} (m : M A) (k : A -> M B) :
  never_aborts m -> (forall a, never_aborts (k a)) -> never_aborts (bind m k).
Proof.
  intros Hm Hk s. unfold bind. specialize (Hm s).
  destruct (m s) as [a s1| |]; [apply Hk|contradiction|discriminate].
Qed.

Lemma never_aborts_if {A} (b : bool) (m1 m2 : M A) :
  never_aborts m1 -> never_aborts m2 -> never_aborts (if b then m1 else m2).
Proof. destruct b; auto. Qed.

Lemma never_aborts_arrow {A} (p : ptr) (f : addr -> M A) :
  (forall a, never_aborts (f a)) -> never_aborts (arrow p f).
Proof. intros H. destruct p; simpl; [apply H|apply never_aborts_undefined]. Qed.

Lemma never_aborts_get_pointer h : never_aborts (get_pointer h).
Proof. intros s. unfold get_pointer. destruct (handles s !! h); discriminate. Qed.

Lemma never_aborts_set_pointer h v : never_aborts (set_pointer h v).
Proof. intros s. unfold set_pointer. destruct (handles s !! h); discriminate. Qed.

Lemma never_aborts_init_pointer h v : never_aborts (init_pointer h v).
Proof. intros s. unfold init_pointer. destruct (handles s !! h); discriminate. Qed.

Lemma never_aborts_load p : never_aborts (ref_count_load p).
Proof. intros s. unfold ref_count_load. destruct (objs s !! p); discriminate. Qed.

Lemma never_aborts_fetch_add p n : never_aborts (ref_count_fetch_add p n).
Proof.
  intros s. unfold ref_count_fetch_add. destruct (objs s !! p); discriminate.
Qed.

Lemma never_aborts_ctor p : never_aborts (ReferenceCounted_ctor p).
Proof.
  intros s. unfold ReferenceCounted_ctor.
  destruct (objs s !! p); [discriminate|]. mrun. discriminate.
Qed.

Lemma never_aborts_GetNum : never_aborts GetNumReferenceCountedObjects.
Proof. intros s. discriminate. Qed.

Lemma never_aborts_DropRef `{cfg : BuildConfig} p : never_aborts (DropRef p).
Proof.
  intros s. destruct (DropRef_cases s p) as [(s1 & -> & _)| ->]; discriminate.
Qed.

Lemma never_aborts_assert_NDEBUG `{cfg : BuildConfig} (m : M bool) :
  NDEBUG = true -> never_aborts (assert_ m).
Proof. intros E s. unfold assert_. rewrite E. discriminate. Qed.

Lemma never_aborts_dtor_NDEBUG `{cfg : BuildConfig} p :
  NDEBUG = true -> never_aborts (ReferenceCounted_dtor p).
Proof.
  intros E s. unfold ReferenceCounted_dtor, assert_. rewrite E.
  destruct (objs s !! p); [|discriminate]. mrun. discriminate.
Qed.

#[local] Hint Resolve never_aborts_ret never_aborts_undefined
  never_aborts_modify never_aborts_if never_aborts_arrow
  never_aborts_get_pointer never_aborts_set_pointer never_aborts_init_pointer
  never_aborts_load never_aborts_fetch_add never_aborts_ctor
  never_aborts_GetNum never_aborts_DropRef never_aborts_assert_NDEBUG
  never_aborts_dtor_NDEBUG : preserves.

Ltac never_aborts_steps :=
  repeat first
    [ apply never_aborts_DropRef
    | apply never_aborts_assert_NDEBUG; assumption
    | apply never_aborts_dtor_NDEBUG; assumption
    | apply never_aborts_bind; [|intros ?]
    | apply never_aborts_if
    | apply never_aborts_arrow; intros ? ];
  auto with preserves.



(** * Objects that own handles: properties *)

Import Members.
Local Open Scope members_scope.

Ltac mstep :=
  repeat (unfold bind, ret, modify, abort, undefined, out_of_fuel, arrow,
            assert_, get_pointer, set_pointer, init_pointer, end_lifetime,
            ref_count_load, ref_count_fetch_sub, total_fetch_add,
            total_fetch_sub, members_of;
          simpl;
          rewrite ?lookup_insert_eq, ?lookup_delete_eq).

Tactic Notation "mstep" "using" tactic3(tac) :=
  repeat (progress (mstep; try tac)).

Lemma members_bind_Ok {A B} (m : M A) (k : A -> M B) s b s2 :
  bind m k s = Ok b s2 ->
  exists a s1, m s = Ok a s1 /\ k a s1 = Ok b s2.
Proof.
  unfold bind. destruct (m s) as [a s1| | |]; try discriminate.
  intros H. exists a, s1. split; [reflexivity|exact H].
Qed.

Lemma shrinks_refl s : shrinks s s.
Proof. unfold shrinks. reflexivity. Qed.

Lemma shrinks_trans s s1 s2 : shrinks s s1 -> shrinks s1 s2 -> shrinks s s2.
Proof. unfold shrinks. intros H1 H2. etrans; eassumption. Qed.

Lemma grows_refl s : grows s s.
Proof. intros f. lia. Qed.

Lemma grows_trans s s1 s2 : grows s s1 -> grows s1 s2 -> grows s s2.
Proof. intros H1 H2 f. specialize (H1 f). specialize (H2 f). lia. Qed.

Lemma grows_log e s : grows s (log e s).
Proof. intros f. simpl. rewrite count_events_cons. lia. Qed.

Lemma tame_ret {A} (a : A) : tame (ret a).
Proof.
  intros s b s1 [= _ <-]. split; [apply shrinks_refl|apply grows_refl].
Qed.

Lemma tame_bind {A B} (m : M A) (k : A -> M B) :
  tame m -> (forall a, tame (k a)) -> tame (bind m k).
Proof.
  intros Hm Hk s b s2 H.
  apply members_bind_Ok in H as (a & s1 & H1 & H2).
  destruct (Hm s a s1 H1) as [S1 G1]. destruct (Hk a s1 b s2 H2) as [S2 G2].
  split; [exact (shrinks_trans _ _ _ S1 S2)|exact (grows_trans _ _ _ G1 G2)].
Qed.

Lemma tame_undefined {A} : tame (@undefined A).
Proof. intros s a s1 [=]. Qed.

Lemma tame_abort {A} : tame (@abort A).
Proof. intros s a s1 [=]. Qed.

Lemma tame_out_of_fuel {A} : tame (@out_of_fuel A).
Proof. intros s a s1 [=]. Qed.

Lemma tame_if {A} (b : bool) (m1 m2 : M A) :
  tame m1 -> tame m2 -> tame (if b then m1 else m2).
Proof. destruct b; auto. Qed.

Lemma tame_arrow {A} (p : option positive) (f : positive -> M A) :
  (forall a, tame (f a)) -> tame (arrow p f).
Proof. intros H. destruct p; simpl; [apply H|apply tame_undefined]. Qed.

Lemma tame_log e : tame (modify (log e)).
Proof.
  intros s a s1 [= _ <-]. split; [|apply grows_log].
  unfold shrinks. reflexivity.
Qed.

Lemma tame_set_objs f : tame (modify (set_objs f)).
Proof.
  intros s a s1 [= _ <-]. split; [|intros g; simpl; lia].
  unfold shrinks. reflexivity.
Qed.

Lemma tame_end_lifetime h : tame (end_lifetime h).
Proof.
  intros s a s1 [= _ <-]. split; [|intros g; simpl; lia].
  unfold shrinks. simpl. apply delete_subseteq.
Qed.

Lemma tame_get_pointer h : tame (get_pointer h).
Proof.
  intros s a s1. unfold get_pointer. destruct (handles s !! h); intros [=].
  subst. split; [apply shrinks_refl|apply grows_refl].
Qed.

Lemma tame_members_of p : tame (members_of p).
Proof.
  intros s a s1. unfold members_of. destruct (objs s !! p); intros [=].
  subst. split; [apply shrinks_refl|apply grows_refl].
Qed.

Lemma tame_load p : tame (ref_count_load p).
Proof.
  intros s a s1. unfold ref_count_load. destruct (objs s !! p); intros [=].
  subst. split; [apply shrinks_refl|apply grows_refl].
Qed.

Lemma tame_fetch_sub p n : tame (ref_count_fetch_sub p n).
Proof.
  intros s a s1. unfold ref_count_fetch_sub. destruct (objs s !! p); intros [=].
  subst. split; [|intros g; simpl; lia].
  unfold shrinks. reflexivity.
Qed.

Lemma tame_total_fetch_sub n : tame (total_fetch_sub n).
Proof.
  intros s a s1 [= _ <-]. split; [|intros g; simpl; lia].
  unfold shrinks. reflexivity.
Qed.

Lemma tame_assert `{cfg : BuildConfig} (m : M bool) : tame m -> tame (assert_ m).
Proof.
  intros H. unfold assert_. destruct NDEBUG; [apply tame_ret|].
  apply tame_bind; [exact H|]. intros []; [apply tame_ret|apply tame_abort].
Qed.

Create HintDb tame.

#[local] Hint Resolve tame_ret tame_undefined tame_abort tame_out_of_fuel
  tame_log tame_set_objs tame_end_lifetime tame_get_pointer tame_members_of
  tame_load tame_fetch_sub tame_total_fetch_sub : tame.

Ltac tame_steps :=
  repeat first
    [ apply tame_bind; [|intros ?]
    | apply tame_if
    | apply tame_arrow; intros ?
    | apply tame_assert ];
  auto with tame.

Section Taming.

Context {cfg : BuildConfig}.

Lemma tame_ReferenceCounted_dtor p : tame (ReferenceCounted_dtor p).
Proof.
  intros s a s1. unfold ReferenceCounted_dtor.
  destruct (objs s !! p); [|discriminate].
  revert s a s1.
  change (tame (assert_ (c <- ref_count_load p ;; ret (c =? 0)) ;;
                total_fetch_sub 1 ;; modify (set_objs (delete p)))).
  tame_steps.
Qed.

Lemma tame_RCReference_dtor_with drop h :
  (forall q, tame (drop q)) -> tame (RCReference_dtor_with drop h).
Proof. intros H. unfold RCReference_dtor_with. tame_steps. Qed.

Lemma tame_destroy_members_with drop ms :
  (forall q, tame (drop q)) -> tame (destroy_members_with drop ms).
Proof.
  intros H. induction ms as [|m ms IH]; simpl; [apply tame_ret|].
  apply tame_bind; [apply tame_RCReference_dtor_with, H|intros _; exact IH].
Qed.

Lemma tame_Destroy_with drop p :
  (forall q, tame (drop q)) -> tame (Destroy_with drop p).
Proof.
  intros H. unfold Destroy_with.
  apply tame_bind; [apply tame_log|intros _].
  apply tame_bind; [apply tame_members_of|intros ms].
  apply tame_bind; [apply tame_destroy_members_with, H|intros _].
  apply tame_ReferenceCounted_dtor.
Qed.

Lemma tame_DropRef fuel : forall p, tame (DropRef fuel p).
Proof.
  induction fuel as [|n IH]; intros p; simpl; [apply tame_out_of_fuel|].
  apply tame_bind; [apply tame_fetch_sub|intros old].
  apply tame_bind; [apply tame_log|intros _].
  apply tame_if; [apply tame_Destroy_with, IH|apply tame_ret].
Qed.

End Taming.

(** ** What a destruction leaves alone *)

Lemma keeps_trans p s s1 s2 :
  grows s s1 -> grows s1 s2 -> keeps p s s1 -> keeps p s1 s2 -> keeps p s s2.
Proof.
  unfold keeps, drops. intros G1 G2 K1 K2 E.
  specialize (G1 (is_drop p)). specialize (G2 (is_drop p)).
  rewrite K2 by lia. apply K1. lia.
Qed.

Lemma calm_tame {A} p (m : M A) : calm p m -> tame m.
Proof. intros H s a s1 E. destruct (H s a s1 E) as (? & ? & _). auto. Qed.

Lemma calm_bind {A B} p (m : M A) (k : A -> M B) :
  calm p m -> (forall a, calm p (k a)) -> calm p (bind m k).
Proof.
  intros Hm Hk s b s2 H.
  apply members_bind_Ok in H as (a & s1 & H1 & H2).
  destruct (Hm s a s1 H1) as (S1 & G1 & K1).
  destruct (Hk a s1 b s2 H2) as (S2 & G2 & K2).
  split; [exact (shrinks_trans _ _ _ S1 S2)|].
  split; [exact (grows_trans _ _ _ G1 G2)|].
  exact (keeps_trans p _ _ _ G1 G2 K1 K2).
Qed.

Lemma calm_of_tame {A} p (m : M A) :
  tame m ->
  (forall s a s1, m s = Ok a s1 -> objs s1 !! p = objs s !! p) ->
  calm p m.
Proof.
  intros Ht Ho s a s1 E. destruct (Ht s a s1 E) as [? ?].
  split; [assumption|]. split; [assumption|].
  intros _. exact (Ho s a s1 E).
Qed.

Lemma calm_ret {A} p (a : A) : calm p (ret a).
Proof.
  apply calm_of_tame; [apply tame_ret|]. intros s b s1 [= _ <-]. reflexivity.
Qed.

Lemma calm_if {A} p (b : bool) (m1 m2 : M A) :
  calm p m1 -> calm p m2 -> calm p (if b then m1 else m2).
Proof. destruct b; auto. Qed.

Lemma calm_arrow {A} p (q : option positive) (f : positive -> M A) :
  (forall a, calm p (f a)) -> calm p (arrow q f).
Proof.
  intros H. destruct q; simpl; [apply H|].
  apply calm_of_tame; [apply tame_undefined|]. intros s a s1 [=].
Qed.

Lemma calm_log p e : calm p (modify (log e)).
Proof.
  apply calm_of_tame; [apply tame_log|]. intros s a s1 [= _ <-]. reflexivity.
Qed.

Lemma calm_end_lifetime p h : calm p (end_lifetime h).
Proof.
  apply calm_of_tame; [apply tame_end_lifetime|].
  intros s a s1 [= _ <-]. reflexivity.
Qed.

Lemma calm_get_pointer p h : calm p (get_pointer h).
Proof.
  apply calm_of_tame; [apply tame_get_pointer|].
  intros s a s1. unfold get_pointer. destruct (handles s !! h); intros [=].
  subst. reflexivity.
Qed.

Lemma calm_members_of p q : calm p (members_of q).
Proof.
  apply calm_of_tame; [apply tame_members_of|].
  intros s a s1. unfold members_of. destruct (objs s !! q); intros [=].
  subst. reflexivity.
Qed.

Lemma calm_fetch_sub p q n : q <> p -> calm p (ref_count_fetch_sub q n).
Proof.
  intros Hne. apply calm_of_tame; [apply tame_fetch_sub|].
  intros s a s1. unfold ref_count_fetch_sub.
  destruct (objs s !! q); intros [=]. subst. simpl.
  apply lookup_insert_ne. exact Hne.
Qed.

Section Calming.

Context {cfg : BuildConfig}.

Lemma ReferenceCounted_dtor_Ok q s s1 :
  ReferenceCounted_dtor q s = Ok tt s1 ->
  is_Some (objs s !! q) /\
  s1 = set_objs (delete q) (set_total (fun t => wrap_size_t (t - 1)) s).
Proof.
  unfold ReferenceCounted_dtor.
  destruct (objs s !! q) as [o|] eqn:E; [|discriminate].
  unfold assert_. destruct NDEBUG.
  - mstep. intros [= <-]. split; [eauto|reflexivity].
  - mstep using (rewrite ?E). destruct (ref_count_ o =? 0); [|discriminate].
    intros [= <-]. split; [eauto|reflexivity].
Qed.

Lemma calm_ReferenceCounted_dtor p q :
  q <> p -> calm p (ReferenceCounted_dtor q).
Proof.
  intros Hne. apply calm_of_tame; [apply tame_ReferenceCounted_dtor|].
  intros s [] s1 H. apply ReferenceCounted_dtor_Ok in H as [_ ->]. simpl.
  apply lookup_delete_ne. exact Hne.
Qed.

Lemma calm_RCReference_dtor_with p drop h :
  (forall q, calm p (drop q)) -> calm p (RCReference_dtor_with drop h).
Proof.
  intros H. unfold RCReference_dtor_with.
  apply calm_bind; [apply calm_get_pointer|intros v].
  apply calm_bind; [apply calm_end_lifetime|intros _].
  apply calm_if; [apply calm_arrow, H|apply calm_ret].
Qed.

Lemma calm_destroy_members_with p drop ms :
  (forall q, calm p (drop q)) -> calm p (destroy_members_with drop ms).
Proof.
  intros H. induction ms as [|m ms IH]; simpl; [apply calm_ret|].
  apply calm_bind; [apply calm_RCReference_dtor_with, H|intros _; exact IH].
Qed.

Lemma drops_after_decrement fuel p s s1 :
  DropRef fuel p s = Ok tt s1 -> (drops p s < drops p s1)%nat.
Proof.
  destruct fuel as [|n]; [discriminate|]. simpl. intros H.
  apply members_bind_Ok in H as (old & s0 & H0 & H).
  apply members_bind_Ok in H as ([] & s0' & H0' & H).
  assert (E : drops p s0' = S (drops p s)).
  { revert H0. unfold ref_count_fetch_sub.
    destruct (objs s !! p); [|discriminate]. intros [= <- <-].
    injection H0' as <-. unfold drops. simpl. rewrite count_events_cons.
    simpl. rewrite bool_decide_eq_true_2 by reflexivity. reflexivity. }
  assert (T : tame (if old =? 1 then Destroy_with (DropRef n) p else ret tt)).
  { apply tame_if; [apply tame_Destroy_with, tame_DropRef|apply tame_ret]. }
  destruct (T s0' tt s1 H) as [_ G]. specialize (G (is_drop p)).
  unfold drops in *. lia.
Qed.

Lemma calm_DropRef p fuel : forall q, calm p (DropRef fuel q).
Proof.
  induction fuel as [|n IH]; intros q.
  - intros s a s1 [=].
  - destruct (decide (q = p)) as [->|Hne].
    + intros s [] s1 H. destruct (tame_DropRef (S n) p s tt s1 H) as [? ?].
      split; [assumption|]. split; [assumption|].
      intros E. pose proof (drops_after_decrement (S n) p s s1 H). lia.
    + simpl.
      apply calm_bind; [apply calm_fetch_sub, Hne|intros old].
      apply calm_bind; [apply calm_log|intros _].
      apply calm_if; [|apply calm_ret].
      unfold Destroy_with.
      apply calm_bind; [apply calm_log|intros _].
      apply calm_bind; [apply calm_members_of|intros ms].
      apply calm_bind; [apply calm_destroy_members_with, IH|intros _].
      apply calm_ReferenceCounted_dtor, Hne.
Qed.

(** A handle that is alive after a [DropRef] was alive before and holds
    what it held. *)
Lemma DropRef_spares fuel q s s1 h x :
  DropRef fuel q s = Ok tt s1 ->
  handles s1 !! h = Some x -> handles s !! h = Some x.
Proof.
  intros H Hx. destruct (tame_DropRef fuel q s tt s1 H) as [Hs _].
  unfold shrinks in Hs. exact (lookup_weaken _ _ _ _ Hx Hs).
Qed.

(** An object on which no [DropRef] was called during a [DropRef] is as it
    was. *)
Lemma DropRef_keeps fuel q s s1 p :
  DropRef fuel q s = Ok tt s1 ->
  drops p s1 = drops p s -> objs s1 !! p = objs s !! p.
Proof.
  intros H. destruct (calm_DropRef p fuel q s tt s1 H) as (_ & _ & K).
  exact K.
Qed.

End Calming.

(** ** Enough fuel *)

Lemma fueled_bind {A B} (m : M A) (k : A -> M B) s :
  fueled m s ->
  (forall a s1, m s = Ok a s1 -> fueled (k a) s1) ->
  fueled (bind m k) s.
Proof.
  unfold fueled, bind. intros Hm Hk.
  destruct (m s) as [a s1| | |]; try discriminate; [|contradiction].
  apply Hk. reflexivity.
Qed.

Section Fuel.

Context {cfg : BuildConfig}.

Lemma fueled_ReferenceCounted_dtor q s : fueled (ReferenceCounted_dtor q) s.
Proof.
  unfold fueled, ReferenceCounted_dtor.
  destruct (objs s !! q) as [o|] eqn:E; [|discriminate].
  unfold assert_. destruct NDEBUG; mstep using (rewrite ?E);
    [discriminate|].
  destruct (ref_count_ o =? 0); discriminate.
Qed.

Lemma fueled_destroy_members n :
  (forall q s, (size (handles s) < n)%nat -> fueled (DropRef n q) s) ->
  forall ms s, (size (handles s) <= n)%nat ->
    fueled (destroy_members_with (DropRef n) ms) s.
Proof.
  intros IH ms. induction ms as [|m ms IHms]; intros s Hs; simpl.
  - discriminate.
  - apply fueled_bind.
    + unfold RCReference_dtor_with.
      apply fueled_bind.
      { unfold fueled, get_pointer. destruct (handles s !! m); discriminate. }
      intros v s1 Hv.
      assert (Hm : is_Some (handles s !! m) /\ s1 = s).
      { revert Hv. unfold get_pointer.
        destruct (handles s !! m); [|discriminate]. intros [= _ <-]. eauto. }
      destruct Hm as [Hm ->].
      apply fueled_bind; [discriminate|].
      intros [] s2 [= <-].
      destruct v as [q|]; simpl; [|discriminate].
      apply IH. simpl. rewrite map_size_delete_Some by exact Hm.
      assert (size (handles s) <> 0)%nat; [|lia].
      intros Hz. apply map_size_empty_inv in Hz. destruct Hm as [x Hx].
      rewrite Hz, lookup_empty in Hx. discriminate.
    + intros [] s1 H1. apply IHms.
      assert (T : tame (RCReference_dtor_with (DropRef n) m))
        by apply tame_RCReference_dtor_with, tame_DropRef.
      destruct (T s tt s1 H1) as [Hsh _].
      apply map_subseteq_size in Hsh. lia.
Qed.

(** [DropRef] returns, aborts or is undefined as soon as the fuel exceeds
    the number of live handles: each level of the nesting has ended the
    lifetime of a handle. *)
Lemma fueled_DropRef fuel :
  forall q s, (size (handles s) < fuel)%nat -> fueled (DropRef fuel q) s.
Proof.
  induction fuel as [|n IH]; intros q s Hs; [lia|]. simpl.
  apply fueled_bind.
  { unfold fueled, ref_count_fetch_sub. destruct (objs s !! q); discriminate. }
  intros old s0 H0.
  assert (E0 : handles s0 = handles s).
  { revert H0. unfold ref_count_fetch_sub.
    destruct (objs s !! q); [|discriminate]. intros [= _ <-]. reflexivity. }
  apply fueled_bind; [discriminate|]. intros [] s0' [= <-].
  destruct (old =? 1); [|discriminate].
  unfold Destroy_with.
  apply fueled_bind; [discriminate|]. intros [] s2 [= <-].
  apply fueled_bind.
  { unfold fueled, members_of. simpl. destruct (objs s0 !! q); discriminate. }
  intros ms s3 H3.
  assert (E3 : handles s3 = handles s).
  { revert H3. unfold members_of. simpl.
    destruct (objs s0 !! q); [|discriminate]. intros [= _ <-]. exact E0. }
  apply fueled_bind.
  - apply fueled_destroy_members; [exact IH|]. rewrite E3. lia.
  - intros [] s4 _. apply fueled_ReferenceCounted_dtor.
Qed.

End Fuel.

(** ** One call of [DropRef] *)

Section OneDrop.

Context {cfg : BuildConfig}.

(** A [DropRef] that does not read 1 only decrements. *)
Lemma DropRef_decrements n s d o :
  objs s !! d = Some o ->
  ref_count_ o <> 1 ->
  DropRef (S n) d s =
    Ok tt (log (EvDropRef d (ref_count_ o))
             (set_objs <[d := mkCounted (wrap_unsigned (ref_count_ o - 1))
                                        (members o)]> s)).
Proof.
  intros Hd Hc. simpl. mstep using (rewrite ?Hd).
  destruct (Z.eqb_spec (ref_count_ o) 1); [contradiction|reflexivity].
Qed.

(** A [DropRef] that reads 1 on an object without handle members does what
    it does in the model without members. *)
Lemma DropRef_destroys_memberless n s d o :
  objs s !! d = Some o ->
  ref_count_ o = 1 ->
  members o = [] ->
  DropRef (S n) d s =
    Ok tt (mkState (delete d (objs s))
             (wrap_size_t (total_reference_counted_objects s - 1))
             (handles s)
             (EvDestroy d :: EvDropRef d 1 :: trace s)).
Proof.
  intros Hd Hc Hm. simpl. unfold Destroy_with, ReferenceCounted_dtor, assert_.
  destruct NDEBUG;
    mstep using (rewrite ?Hd, ?Hc, ?Hm); simpl;
    mstep using (rewrite ?Hd, ?Hc, ?Hm);
    (f_equal; unfold set_objs, set_total, log; simpl; f_equal;
     apply delete_insert_eq).
Qed.

(** After a [DropRef] that read 1 has returned, the object is gone. *)
Lemma DropRef_last_unit_gone fuel s d o s1 :
  objs s !! d = Some o ->
  ref_count_ o = 1 ->
  DropRef fuel d s = Ok tt s1 ->
  objs s1 !! d = None.
Proof.
  intros Hd Hc. destruct fuel as [|n]; [discriminate|]. simpl. intros H.
  apply members_bind_Ok in H as (old & s0 & H0 & H).
  assert (old = 1).
  { revert H0. unfold ref_count_fetch_sub. rewrite Hd. intros [= <- _].
    exact Hc. }
  subst old.
  apply members_bind_Ok in H as ([] & s0' & _ & H). simpl in H.
  unfold Destroy_with in H.
  apply members_bind_Ok in H as ([] & s2 & _ & H).
  apply members_bind_Ok in H as (ms & s3 & _ & H).
  apply members_bind_Ok in H as ([] & s4 & _ & H).
  apply ReferenceCounted_dtor_Ok in H as [_ ->]. simpl.
  apply lookup_delete_eq.
Qed.

End OneDrop.

(** ** Move assignment when objects own handles *)

Section MoveAssign.

Context {cfg : BuildConfig}.

Lemma members_pointer_of_Some s h v :
  pointer_of s h = Some v <-> handles s !! h = Some (mkRCReference v).
Proof.
  unfold pointer_of. split.
  - destruct (handles s !! h) as [[w]|]; simpl; intros [=]; subst; reflexivity.
  - intros ->. reflexivity.
Qed.

Lemma operator_assign_unfold fuel s this other d :
  handles s !! this = Some (mkRCReference (Some d)) ->
  operator_assign fuel this other s =
    (DropRef fuel d ;;
     v <- get_pointer other ;;
     set_pointer this v ;;
     set_pointer other None) s.
Proof.
  intros Ht. unfold operator_assign.
  unfold bind at 1. unfold get_pointer at 1. rewrite Ht. reflexivity.
Qed.

Lemma operator_assign_after_drop fuel s this other d v s1 :
  handles s !! this = Some (mkRCReference (Some d)) ->
  handles s !! other = Some (mkRCReference v) ->
  DropRef fuel d s = Ok tt s1 ->
  is_Some (handles s1 !! this) ->
  is_Some (handles s1 !! other) ->
  operator_assign fuel this other s =
    Ok tt (set_handles
             (fun m => <[other := mkRCReference None]>
                         (<[this := mkRCReference v]> m)) s1).
Proof.
  intros Ht Ho HD [x Hx] [y Hy].
  pose proof (DropRef_spares fuel d s s1 other y HD Hy) as Hy'.
  assert (y = mkRCReference v) by congruence. subst y.
  rewrite (operator_assign_unfold fuel s this other d Ht).
  unfold bind at 1. rewrite HD.
  mstep using (rewrite ?Hy, ?Hx).
  destruct (decide (this = other)) as [->|Hne].
  - rewrite lookup_insert_eq. reflexivity.
  - rewrite lookup_insert_ne by congruence. rewrite Hy. reflexivity.
Qed.

Lemma operator_assign_source_gone fuel s this other d s1 :
  handles s !! this = Some (mkRCReference (Some d)) ->
  DropRef fuel d s = Ok tt s1 ->
  handles s1 !! other = None ->
  operator_assign fuel this other s = Undefined.
Proof.
  intros Ht HD Ho.
  rewrite (operator_assign_unfold fuel s this other d Ht).
  unfold bind at 1. rewrite HD. mstep using (rewrite ?Ho). reflexivity.
Qed.

Lemma operator_assign_empty fuel s this other v :
  handles s !! this = Some (mkRCReference None) ->
  handles s !! other = Some (mkRCReference v) ->
  operator_assign fuel this other s =
    Ok tt (set_handles
             (fun m => <[other := mkRCReference None]>
                         (<[this := mkRCReference v]> m)) s).
Proof.
  intros Ht Ho. unfold operator_assign.
  destruct (decide (this = other)) as [->|Hne].
  - assert (v = None) by congruence. subst v.
    mstep using (rewrite ?Ht). reflexivity.
  - mstep using (rewrite ?Ht, ?Ho, ?lookup_insert_ne by congruence).
    reflexivity.
Qed.

Lemma fueled_operator_assign fuel s this other :
  (size (handles s) < fuel)%nat -> fueled (operator_assign fuel this other) s.
Proof.
  intros Hs. unfold operator_assign.
  apply fueled_bind.
  { unfold fueled, get_pointer. destruct (handles s !! this); discriminate. }
  intros p s0 H0.
  assert (s0 = s).
  { revert H0. unfold get_pointer. destruct (handles s !! this);
      [|discriminate]. intros [= _ <-]. reflexivity. }
  subst s0.
  apply fueled_bind.
  { destruct p as [q|]; simpl; [apply fueled_DropRef, Hs|discriminate]. }
  intros [] s1 _.
  apply fueled_bind.
  { unfold fueled, get_pointer. destruct (handles s1 !! other); discriminate. }
  intros v s2 _.
  apply fueled_bind.
  { unfold fueled, set_pointer. destruct (handles s2 !! this); discriminate. }
  intros [] s3 _.
  unfold fueled, set_pointer. destruct (handles s3 !! other); discriminate.
Qed.

End MoveAssign.

(** The list [head -> 5 -> 6]: [head = std::move(head->next)] destroys
    node 5 with its member [next] before it reads that member, which is
    undefined behaviour; [head.reset(head->next.release())] empties the
    member first and leaves [head] holding node 6.  So the order of the drop
    and of the accesses to the source can be observed. *)
Example assign_from_owned_member :
  operator_assign (cfg := debug_build) 3 0%nat 10%nat st_list = Undefined /\
  exists s',
    (p <- release 10%nat ;; reset (cfg := debug_build) 3 0%nat p) st_list =
      Ok tt s' /\
    pointer_of s' 0%nat = Some (Some 6%positive) /\
    count_of s' 6%positive = Some 1 /\
    objs s' !! 5%positive = None.
Proof.
  split; [vm_compute; reflexivity|].
  eexists. split; [vm_compute; reflexivity|].
  repeat split; reflexivity.
Qed.

(** The destination's referent owns a unit of the source's referent:
    the assignment is defined and the count of the source's referent goes
    from 2 to 1, by the [DropRef] of the member that is destroyed. *)
Example assign_over_owner_of_a_unit :
  count_of st_owner 6%positive = Some 2 /\
  exists s',
    operator_assign (cfg := debug_build) 3 0%nat 1%nat st_owner = Ok tt s' /\
    count_of s' 6%positive = Some 1 /\
    drops 6%positive s' = 1%nat /\
    pointer_of s' 0%nat = Some (Some 6%positive).
Proof.
  split; [reflexivity|].
  eexists. split; [vm_compute; reflexivity|].
  repeat split; reflexivity.
Qed.






(** ** A destruction does not look at the handles it spares *)

Lemma blind_bind {A B} b (m : M A) (k : A -> M B) :
  blind b m -> (forall a, blind b (k a)) -> (forall a, tame (k a)) ->
  blind b (bind m k).
Proof.
  intros Hm Hk Ht s c s2 x H Hb.
  apply members_bind_Ok in H as (a & s1 & H1 & H2).
  destruct (Ht a s1 c s2 H2) as [Hsh _].
  assert (Hb1 : is_Some (handles s1 !! b)).
  { destruct Hb as [y Hy]. exists y. exact (lookup_weaken _ _ _ _ Hy Hsh). }
  unfold bind. rewrite (Hm s a s1 x H1 Hb1). exact (Hk a s1 c s2 x H2 Hb).
Qed.

Lemma blind_ret {A} b (a : A) : blind b (ret a).
Proof. intros s c s1 x [= <- <-] _. reflexivity. Qed.

Lemma blind_if {A} b (c : bool) (m1 m2 : M A) :
  blind b m1 -> blind b m2 -> blind b (if c then m1 else m2).
Proof. destruct c; auto. Qed.

Lemma blind_arrow {A} b (q : option positive) (f : positive -> M A) :
  (forall a, blind b (f a)) -> blind b (arrow q f).
Proof. intros H. destruct q; simpl; [apply H|]. intros s a s1 x [=]. Qed.

Lemma blind_log b e : blind b (modify (log e)).
Proof. intros s a s1 x [= <- <-] _. reflexivity. Qed.

Lemma blind_set_objs b f : blind b (modify (set_objs f)).
Proof. intros s a s1 x [= <- <-] _. reflexivity. Qed.

Lemma blind_members_of b q : blind b (members_of q).
Proof.
  intros s a s1 x. unfold members_of. simpl.
  destruct (objs s !! q); intros [= <- <-] _. reflexivity.
Qed.

Lemma blind_load b q : blind b (ref_count_load q).
Proof.
  intros s a s1 x. unfold ref_count_load. simpl.
  destruct (objs s !! q); intros [= <- <-] _. reflexivity.
Qed.

Lemma blind_fetch_sub b q n : blind b (ref_count_fetch_sub q n).
Proof.
  intros s a s1 x. unfold ref_count_fetch_sub. simpl.
  destruct (objs s !! q); intros [= <- <-] _. reflexivity.
Qed.

Lemma blind_total_fetch_sub b n : blind b (total_fetch_sub n).
Proof. intros s a s1 x [= <- <-] _. reflexivity. Qed.

Section Blindness.

Context {cfg : BuildConfig}.

Lemma blind_ReferenceCounted_dtor b q : blind b (ReferenceCounted_dtor q).
Proof.
  intros s [] s1 x H _.
  apply ReferenceCounted_dtor_Ok in H as H'. destruct H' as [[o Ho] ->].
  revert H. unfold ReferenceCounted_dtor, assert_. simpl. rewrite Ho.
  destruct NDEBUG.
  - mstep. intros _. reflexivity.
  - mstep using (rewrite ?Ho). destruct (ref_count_ o =? 0); [|discriminate].
    intros _. reflexivity.
Qed.

Lemma blind_RCReference_dtor_with b drop h :
  (forall q, blind b (drop q)) -> (forall q, tame (drop q)) ->
  blind b (RCReference_dtor_with drop h).
Proof.
  intros Hb Ht s [] s1 x H Hs1.
  destruct (decide (h = b)) as [->|Hne].
  - exfalso. unfold RCReference_dtor_with in H.
    apply members_bind_Ok in H as (v & s0 & _ & H).
    apply members_bind_Ok in H as ([] & s0' & H0 & H).
    injection H0 as <-.
    assert (T : tame (if is_nonnull v then arrow v drop else ret tt))
      by (apply tame_if; [apply tame_arrow, Ht|apply tame_ret]).
    destruct (T _ tt s1 H) as [Hsh _]. destruct Hs1 as [y Hy].
    pose proof (lookup_weaken _ _ _ _ Hy Hsh) as Hy'. simpl in Hy'.
    rewrite lookup_delete_eq in Hy'. discriminate.
  - revert H. unfold RCReference_dtor_with. unfold bind at 1 3.
    unfold get_pointer. simpl. rewrite lookup_insert_ne by congruence.
    destruct (handles s !! h) as [[v]|]; [|discriminate]. simpl.
    unfold bind at 1 2. unfold end_lifetime, modify. simpl.
    intros H.
    assert (B : blind b (if is_nonnull v then arrow v drop else ret tt))
      by (apply blind_if; [apply blind_arrow, Hb|apply blind_ret]).
    specialize (B _ tt s1 x H Hs1). simpl in B.
    rewrite <- B. f_equal. unfold set_handles. simpl. f_equal.
    apply delete_insert_ne. congruence.
Qed.

Lemma blind_destroy_members_with b drop ms :
  (forall q, blind b (drop q)) -> (forall q, tame (drop q)) ->
  blind b (destroy_members_with drop ms).
Proof.
  intros Hb Ht. induction ms as [|m ms IH]; simpl; [apply blind_ret|].
  apply blind_bind.
  - apply blind_RCReference_dtor_with; assumption.
  - intros _. exact IH.
  - intros _. apply tame_destroy_members_with, Ht.
Qed.

Lemma blind_DropRef b fuel : forall q, blind b (DropRef fuel q).
Proof.
  induction fuel as [|n IH]; intros q; [intros s a s1 x [=]|]. simpl.
  apply blind_bind; [apply blind_fetch_sub| |].
  - intros old. apply blind_bind; [apply blind_log| |].
    + intros _. apply blind_if; [|apply blind_ret]. unfold Destroy_with.
      apply blind_bind; [apply blind_log| |].
      * intros _. apply blind_bind; [apply blind_members_of| |].
        { intros ms. apply blind_bind.
          - apply blind_destroy_members_with; [exact IH|apply tame_DropRef].
          - intros _. apply blind_ReferenceCounted_dtor.
          - intros _. apply tame_ReferenceCounted_dtor. }
        { intros ms. apply tame_bind;
            [apply tame_destroy_members_with, tame_DropRef|].
          intros _. apply tame_ReferenceCounted_dtor. }
      * intros _. apply tame_bind; [apply tame_members_of|intros ms].
        apply tame_bind; [apply tame_destroy_members_with, tame_DropRef|].
        intros _. apply tame_ReferenceCounted_dtor.
    + intros _. apply tame_if; [apply tame_Destroy_with, tame_DropRef|].
      apply tame_ret.
  - intros old. apply tame_bind; [apply tame_log|intros _].
    apply tame_if; [apply tame_Destroy_with, tame_DropRef|apply tame_ret].
Qed.

(** X2. Between two different live handles, [a.reset(b.release())] does
    what [a = std::move(b)] does whenever the destination is empty, or the
    drop of what it holds returns and ends the lifetime of neither handle:
    the same state, with the source empty and the destination holding what
    the source held.  On one and the same live handle,
    [a.reset(a.release())] changes nothing and calls nothing. *)
Theorem reset_release_is_move_assign (fuel : nat) (s : State) (a b : nat)
    (x y : RCReference) :
  handles s !! a = Some x ->
  handles s !! b = Some y ->
  (a <> b -> pointer_ x = None ->
     (p <- release b ;; reset fuel a p) s = operator_assign fuel a b s) /\
  (forall d s1,
     a <> b -> pointer_ x = Some d ->
     DropRef fuel d s = Ok tt s1 ->
     is_Some (handles s1 !! a) ->
     is_Some (handles s1 !! b) ->
     (p <- release b ;; reset fuel a p) s = operator_assign fuel a b s /\
     operator_assign fuel a b s =
       Ok tt (set_handles
                (fun m => <[b := mkRCReference None]> (<[a := y]> m)) s1)) /\
  (a = b -> (p <- release b ;; reset fuel a p) s = Ok tt s).
Proof.
  intros Ha Hb. destruct x as [dx], y as [v]. simpl. split; [|split].
  - intros Hne ->.
    rewrite (operator_assign_empty fuel s a b v Ha Hb).
    unfold release, reset.
    mstep using (rewrite ?Ha, ?Hb, ?lookup_insert_ne by congruence).
    f_equal. unfold set_handles. simpl. f_equal.
    apply insert_insert_ne. congruence.
  - intros d s1 Hne -> HD Hsa Hsb.
    pose proof (operator_assign_after_drop fuel s a b d v s1 Ha Hb HD Hsa Hsb)
      as E.
    split; [|exact E]. rewrite E.
    pose proof (blind_DropRef b fuel d s tt s1 (mkRCReference None) HD Hsb)
      as HD'.
    unfold release, reset.
    mstep using (rewrite ?Ha, ?Hb, ?lookup_insert_ne by congruence).
    change (mkState (objs s) (total_reference_counted_objects s)
              (<[b := mkRCReference None]> (handles s)) (trace s))
      with (set_handles <[b := mkRCReference None]> s).
    rewrite HD'. simpl.
    rewrite lookup_insert_ne by congruence.
    destruct Hsa as [z ->]. f_equal. unfold set_handles. simpl. f_equal.
    apply insert_insert_ne. congruence.
  - intros ->. assert (dx = v) by congruence. subst dx.
    unfold release, reset. mstep using (rewrite ?Hb).
    f_equal. destruct s as [o t h tr]. unfold set_handles. simpl in *.
    f_equal. rewrite insert_insert_eq. apply insert_id. exact Hb.
Qed.

End Blindness.

Lemma reset_release_is_move_assign_witness :
  (p <- release 1%nat ;; reset (cfg := debug_build) 2 0%nat p) st_pair =
  operator_assign (cfg := debug_build) 2 0%nat 1%nat st_pair.
Proof.
  destruct (reset_release_is_move_assign (cfg := debug_build) 2 st_pair
              0%nat 1%nat (mkRCReference (Some 5%positive))
              (mkRCReference (Some 6%positive))) as (_ & H & _);
    [reflexivity|reflexivity|].
  destruct (H 5%positive
              (mkState {[6%positive := mkCounted 1 []]} 1
                 {[0%nat := mkRCReference (Some 5%positive);
                   1%nat := mkRCReference (Some 6%positive)]}
                 [EvDestroy 5%positive; EvDropRef 5%positive 1]))
    as [E _].
  - lia.
  - reflexivity.
  - vm_compute. reflexivity.
  - exists (mkRCReference (Some 5%positive)). reflexivity.
  - exists (mkRCReference (Some 6%positive)). reflexivity.
  - exact E.
Defined.

(** ** The two models agree on objects without members *)

(** Where [DropRef] only decrements, or destroys an object that has no
    handle members, the [DropRef] of [Members] and the [DropRef] of the
    first part do the same. *)
Lemma DropRef_agrees_without_members `{cfg : BuildConfig} n d s o :
  objs s !! d = Some o ->
  (ref_count_ o = 1 -> members o = []) ->
  DropRef_agrees (S n) d s.
Proof.
  intros Hd Hm s1 H.
  assert (Hf : forall m : gmap positive Counted,
             m !! d = Some o ->
             ((fun o => mkReferenceCounted (ref_count_ o)) <$> m) !! d =
               Some (mkReferenceCounted (ref_count_ o))).
  { intros m E. rewrite lookup_fmap, E. reflexivity. }
  rewrite (DropRef_live (forget s) d (mkReferenceCounted (ref_count_ o)))
    by (apply Hf, Hd).
  f_equal. simpl.
  destruct (Z.eqb_spec (ref_count_ o) 1) as [E|E].
  - rewrite (DropRef_destroys_memberless n s d o Hd E (Hm E)) in H.
    injection H as <-. apply State_eq; simpl; try reflexivity.
    rewrite fmap_delete. reflexivity.
  - rewrite (DropRef_decrements n s d o Hd E) in H.
    injection H as <-. apply State_eq; simpl; try reflexivity.
    rewrite fmap_insert. reflexivity.
Qed.
